(** * dingtalk-webhook: a shallow embedding of [webhook.go]

    The client posts JSON payloads to a DingTalk robot endpoint.  The
    repository's own code ([sendPayload], [getSign], [addParamsToURL], the
    message builders and the mobile-number pattern) is embedded function by
    function.  What it calls in Go's standard library is modelled next to it:

    - [strings], [strconv], [crypto/sha256], [crypto/hmac],
      [encoding/base64], [unicode/utf8], [regexp] and [net/url] are
      executable models of the library functions the client calls;
    - the network ([http.Post]), the clock ([time.Now]) and [encoding/json]
      are the fields of a [Runtime] record the client is parameterised by.

    Go strings are byte sequences: they are [string]s here, one [ascii] per
    byte.  A [[]byte] is a [list Z] of values in [0, 256).  The library is
    modelled as of Go 1.20: [url.ParseQuery] rejects a pair with a
    semicolon, and a [URL] has the field [OmitHost]. *)

From Stdlib Require Import ZArith Lia List Ascii String DecimalString.
From Stdlib Require DecimalZ.
From stdpp Require Import base option list sorting gmap strings.

Local Open Scope list_scope.
Local Open Scope string_scope.

(* ===================================================================== *)
(** * Part I: the Go standard library, as far as the client uses it      *)
(* ===================================================================== *)

(** ** package strings *)
Module strings.

Fixpoint HasPrefix (s prefix : string) : bool :=
  match prefix, s with
  | EmptyString, _ => true
  | String _ _, EmptyString => false
  | String p prefix', String c s' =>
      if Ascii.eqb c p then HasPrefix s' prefix' else false
  end.

(** [Contains s substr]: [substr] occurs in [s] at some offset. *)
Fixpoint Contains (s substr : string) : bool :=
  HasPrefix s substr ||
  match s with
  | EmptyString => false
  | String _ s' => Contains s' substr
  end.

(** [ContainsByte s c]: the one-byte case of [Contains]. *)
Fixpoint ContainsByte (s : string) (c : ascii) : bool :=
  match s with
  | EmptyString => false
  | String a s' => Ascii.eqb a c || ContainsByte s' c
  end.

(** [CutByte s sep] is [strings.Cut(s, sep)] for a one-byte separator:
    the text before and after the first [sep], and whether it was found. *)
Fixpoint CutByte (s : string) (sep : ascii) : string * string * bool :=
  match s with
  | EmptyString => (EmptyString, EmptyString, false)
  | String c s' =>
      if Ascii.eqb c sep then (EmptyString, s', true)
      else let '(before, after, found) := CutByte s' sep in
           (String c before, after, found)
  end.

(** [SplitByte s sep] is [strings.Split(s, sep)] for a one-byte separator. *)
Fixpoint SplitByte (s : string) (sep : ascii) : list string :=
  match s with
  | EmptyString => [EmptyString]
  | String c s' =>
      if Ascii.eqb c sep then EmptyString :: SplitByte s' sep
      else match SplitByte s' sep with
           | [] => [String c EmptyString]
           | h :: t => String c h :: t
           end
  end.

(** [LastCutByte s sep]: the text before and after the LAST [sep], as the
    [strings.LastIndex] call sites of [net/url] use it. *)
Fixpoint LastCutByte (s : string) (sep : ascii) : option (string * string) :=
  match s with
  | EmptyString => None
  | String c s' =>
      match LastCutByte s' sep with
      | Some (before, after) => Some (String c before, after)
      | None => if Ascii.eqb c sep then Some (EmptyString, s') else None
      end
  end.

Definition ToLowerByte (c : ascii) : ascii :=
  let n := N_of_ascii c in
  if ((65 <=? n) && (n <=? 90))%N then ascii_of_N (n + 32) else c.

Fixpoint ToLower (s : string) : string :=
  match s with
  | EmptyString => EmptyString
  | String c s' => String (ToLowerByte c) (ToLower s')
  end.

Definition eqb (a b : string) : bool := String.eqb a b.

End strings.

(** ** package strconv *)
Module strconv.

(** [FormatInt(i, 10)]: the decimal digits of [i], with a leading [-] when
    [i] is negative. *)
Definition FormatInt (i : Z) : string :=
  NilZero.string_of_int (Z.to_int i).

End strconv.

(** ** [[]byte] conversions *)
Definition bytes := list Z.

Definition byte_of_ascii (c : ascii) : Z := Z.of_N (N_of_ascii c).
Definition ascii_of_byte (b : Z) : ascii := ascii_of_N (Z.to_N (b mod 256)).

(** [[]byte(s)] *)
Definition bytes_of_string (s : string) : bytes :=
  map byte_of_ascii (list_ascii_of_string s).

(** [string(b)] *)
Definition string_of_bytes (b : bytes) : string :=
  string_of_list_ascii (map ascii_of_byte b).

(** ** package crypto/sha256 (FIPS 180-4), on 32-bit words held in [Z] *)
Module sha256.

Definition BlockSize : nat := 64.
Definition Size : nat := 32.

(** wrap-around of [uint32] arithmetic *)
Definition u32 (x : Z) : Z := Z.land x 0xFFFFFFFF.
Definition add32 (x y : Z) : Z := u32 (x + y).

(** [bits.RotateLeft32(x, -n)] *)
Definition rotr (n x : Z) : Z :=
  u32 (Z.lor (Z.shiftr x n) (Z.shiftl x (32 - n))).

(** [^x] on a [uint32] *)
Definition not32 (x : Z) : Z := Z.lxor x 0xFFFFFFFF.

Definition _K : list Z :=
  [ 0x428A2F98; 0x71374491; 0xB5C0FBCF; 0xE9B5DBA5; 0x3956C25B; 0x59F111F1;
    0x923F82A4; 0xAB1C5ED5; 0xD807AA98; 0x12835B01; 0x243185BE; 0x550C7DC3;
    0x72BE5D74; 0x80DEB1FE; 0x9BDC06A7; 0xC19BF174; 0xE49B69C1; 0xEFBE4786;
    0x0FC19DC6; 0x240CA1CC; 0x2DE92C6F; 0x4A7484AA; 0x5CB0A9DC; 0x76F988DA;
    0x983E5152; 0xA831C66D; 0xB00327C8; 0xBF597FC7; 0xC6E00BF3; 0xD5A79147;
    0x06CA6351; 0x14292967; 0x27B70A85; 0x2E1B2138; 0x4D2C6DFC; 0x53380D13;
    0x650A7354; 0x766A0ABB; 0x81C2C92E; 0x92722C85; 0xA2BFE8A1; 0xA81A664B;
    0xC24B8B70; 0xC76C51A3; 0xD192E819; 0xD6990624; 0xF40E3585; 0x106AA070;
    0x19A4C116; 0x1E376C08; 0x2748774C; 0x34B0BCB5; 0x391C0CB3; 0x4ED8AA4A;
    0x5B9CCA4F; 0x682E6FF3; 0x748F82EE; 0x78A5636F; 0x84C87814; 0x8CC70208;
    0x90BEFFFA; 0xA4506CEB; 0xBEF9A3F7; 0xC67178F2 ]%Z.

(** the initial hash value [init0 .. init7] *)
Definition init : list Z :=
  [ 0x6A09E667; 0xBB67AE85; 0x3C6EF372; 0xA54FF53A;
    0x510E527F; 0x9B05688C; 0x1F83D9AB; 0x5BE0CD19 ]%Z.

(** big-endian [uint32] from four bytes *)
Definition be32 (b0 b1 b2 b3 : Z) : Z :=
  Z.lor (Z.lor (Z.shiftl b0 24) (Z.shiftl b1 16)) (Z.lor (Z.shiftl b2 8) b3).

Fixpoint words (p : bytes) (n : nat) : list Z :=
  match n, p with
  | S n', b0 :: b1 :: b2 :: b3 :: p' => be32 b0 b1 b2 b3 :: words p' n'
  | _, _ => []
  end.

(** the message schedule: [w[i] = t1 + w[i-7] + t2 + w[i-16]] for
    [i = 16 .. 63], [w] holding the words computed so far *)
Fixpoint schedule (n : nat) (w : list Z) : list Z :=
  match n with
  | O => w
  | S n' =>
      let i := length w in
      let v1 := nth (i - 2) w 0%Z in
      let t1 := Z.lxor (Z.lxor (rotr 17 v1) (rotr 19 v1)) (Z.shiftr v1 10) in
      let v2 := nth (i - 15) w 0%Z in
      let t2 := Z.lxor (Z.lxor (rotr 7 v2) (rotr 18 v2)) (Z.shiftr v2 3) in
      let wi := add32 (add32 (add32 t1 (nth (i - 7) w 0%Z)) t2)
                      (nth (i - 16) w 0%Z) in
      schedule n' (w ++ [wi])
  end.

Record regs := Regs { ra : Z; rb : Z; rc : Z; rd : Z;
                      re : Z; rf : Z; rg : Z; rh : Z }.

(** one round of the compression loop *)
Definition round (r : regs) (kw : Z * Z) : regs :=
  let '(k, w) := kw in
  let '(Regs a b c d e f g h) := r in
  let t1 :=
    add32 (add32 (add32 (add32 h
      (Z.lxor (Z.lxor (rotr 6 e) (rotr 11 e)) (rotr 25 e)))
      (Z.lxor (Z.land e f) (Z.land (not32 e) g))) k) w in
  let t2 :=
    add32 (Z.lxor (Z.lxor (rotr 2 a) (rotr 13 a)) (rotr 22 a))
          (Z.lxor (Z.lxor (Z.land a b) (Z.land a c)) (Z.land b c)) in
  Regs (add32 t1 t2) a b c (add32 d t1) e f g.

Definition regs_of (h : list Z) : regs :=
  match h with
  | [h0; h1; h2; h3; h4; h5; h6; h7] => Regs h0 h1 h2 h3 h4 h5 h6 h7
  | _ => Regs 0 0 0 0 0 0 0 0
  end.

(** [blockGeneric] on one 64-byte chunk *)
Definition block (h : list Z) (p : bytes) : list Z :=
  let w := schedule 48 (words p 16) in
  let r0 := regs_of h in
  let '(Regs a b c d e f g hh) := fold_left round (combine _K w) r0 in
  let '(Regs h0 h1 h2 h3 h4 h5 h6 h7) := r0 in
  [ add32 h0 a; add32 h1 b; add32 h2 c; add32 h3 d;
    add32 h4 e; add32 h5 f; add32 h6 g; add32 h7 hh ].

(** the chunk loop [for len(p) >= chunk], at most [n] chunks *)
Fixpoint blocks (n : nat) (h : list Z) (p : bytes) : list Z :=
  match n with
  | O => h
  | S n' =>
      if (length p <? BlockSize)%nat then h
      else blocks n' (block h (firstn BlockSize p)) (skipn BlockSize p)
  end.

(** big-endian bytes of an [n]-byte unsigned integer *)
Fixpoint be_bytes (n : nat) (x : Z) : bytes :=
  match n with
  | O => []
  | S n' => Z.land (Z.shiftr x (8 * Z.of_nat n')) 0xFF :: be_bytes n' x
  end.

(** [checkSum]: the padding is a [0x80] byte, zero bytes up to 56 modulo
    64, and the bit length of the message as a big-endian [uint64] *)
Definition pad (msg : bytes) : bytes :=
  let len := length msg in
  let zeros := ((BlockSize + 55 - len mod BlockSize) mod BlockSize)%nat in
  (msg ++ [0x80%Z] ++ repeat 0%Z zeros
       ++ be_bytes 8 (Z.land (8 * Z.of_nat len) 0xFFFFFFFFFFFFFFFF))%list.

(** [sha256.Sum256] *)
Definition Sum256 (msg : bytes) : bytes :=
  let p := pad msg in
  flat_map (be_bytes 4) (blocks (length p / BlockSize) init p).

End sha256.

(** ** package crypto/hmac, instantiated with [sha256.New] *)
Module hmac.

(** The [hash.Hash] state of an HMAC: the pads and the bytes written to
    the inner hash so far ([hm.inner.Write] only appends). *)
Record t := Hmac { ipad : bytes; opad : bytes; inner : bytes }.

(** [copy(pad, key)] into a zeroed block *)
Definition block_of_key (key : bytes) : bytes :=
  firstn sha256.BlockSize (key ++ repeat 0%Z sha256.BlockSize)%list.

(** [hmac.New(sha256.New, key)] *)
Definition New (key : bytes) : t :=
  let key := if (sha256.BlockSize <? length key)%nat
             then sha256.Sum256 key   (* a key that is too big is hashed *)
             else key in
  let ipad := map (fun b => Z.lxor b 0x36) (block_of_key key) in
  let opad := map (fun b => Z.lxor b 0x5c) (block_of_key key) in
  Hmac ipad opad ipad.                (* hm.inner.Write(hm.ipad) *)

(** [h.Write(p)] *)
Definition Write (h : t) (p : bytes) : t :=
  Hmac (ipad h) (opad h) (inner h ++ p)%list.

(** [h.Sum(in)] *)
Definition Sum (h : t) (in_ : bytes) : bytes :=
  let digest := sha256.Sum256 (inner h) in
  (in_ ++ sha256.Sum256 (opad h ++ digest))%list.

End hmac.

(** ** package encoding/base64: [StdEncoding] *)
Module base64.

Definition encodeStd : string :=
  "ABCDEFGHIJKLMNOPQRSTUVWXYZabcdefghijklmnopqrstuvwxyz0123456789+/".

Definition enc (v : Z) : ascii :=
  match String.get (Z.to_nat (Z.land v 0x3F)) encodeStd with
  | Some c => c
  | None => "="%char
  end.

(** [EncodeToString]: three bytes make four characters; a remainder of
    one or two bytes is padded with [=]. *)
Fixpoint EncodeToString (src : bytes) : string :=
  match src with
  | [] => EmptyString
  | [b0] =>
      let v := Z.shiftl b0 16 in
      String (enc (Z.shiftr v 18)) (String (enc (Z.shiftr v 12)) "==")
  | [b0; b1] =>
      let v := Z.lor (Z.shiftl b0 16) (Z.shiftl b1 8) in
      String (enc (Z.shiftr v 18)) (String (enc (Z.shiftr v 12))
        (String (enc (Z.shiftr v 6)) "="))
  | b0 :: b1 :: b2 :: src' =>
      let v := Z.lor (Z.lor (Z.shiftl b0 16) (Z.shiftl b1 8)) b2 in
      String (enc (Z.shiftr v 18)) (String (enc (Z.shiftr v 12))
        (String (enc (Z.shiftr v 6)) (String (enc v) (EncodeToString src'))))
  end.

End base64.

Definition hex_of_bytes (b : bytes) : string :=
  let digit v := match String.get (Z.to_nat v) "0123456789abcdef" with
                 | Some c => c | None => "?"%char end in
  fold_right (fun x acc => String (digit (Z.shiftr x 4))
                             (String (digit (Z.land x 15)) acc))
             EmptyString b.

(** ** package unicode/utf8 *)
Module utf8.

Definition RuneError : Z := 0xFFFD.

(** The table [first] with [acceptRanges]: for a leading byte of a
    multi-byte encoding, the size of the encoding and the range the
    second byte must lie in; [None] for ASCII and for invalid leading
    bytes. *)
Definition first (b : Z) : option (nat * Z * Z) :=
  if (b <? 0xC2)%Z then None
  else if (b <? 0xE0)%Z then Some (2%nat, 0x80, 0xBF)%Z
  else if (b =? 0xE0)%Z then Some (3%nat, 0xA0, 0xBF)%Z
  else if (b <? 0xED)%Z then Some (3%nat, 0x80, 0xBF)%Z
  else if (b =? 0xED)%Z then Some (3%nat, 0x80, 0x9F)%Z
  else if (b <? 0xF0)%Z then Some (3%nat, 0x80, 0xBF)%Z
  else if (b =? 0xF0)%Z then Some (4%nat, 0x90, 0xBF)%Z
  else if (b <? 0xF4)%Z then Some (4%nat, 0x80, 0xBF)%Z
  else if (b =? 0xF4)%Z then Some (4%nat, 0x80, 0x8F)%Z
  else None.

Definition cont (b : Z) : bool := (0x80 <=? b)%Z && (b <=? 0xBF)%Z.

(** [DecodeRuneInString]: the first rune of [s] and its width in bytes;
    an invalid encoding is [RuneError] of width 1. *)
Definition DecodeRuneInString (s : string) : Z * nat :=
  match map byte_of_ascii (list_ascii_of_string s) with
  | [] => (RuneError, 0%nat)
  | s0 :: rest =>
      match first s0 with
      | None => ((if (s0 <? 0x80)%Z then s0 else RuneError), 1%nat)
      | Some (sz, lo, hi) =>
          match rest with
          | [] => (RuneError, 1%nat)
          | s1 :: rest1 =>
              if (length rest <? sz - 1)%nat then (RuneError, 1%nat)
              else if (s1 <? lo)%Z || (hi <? s1)%Z then (RuneError, 1%nat)
              else if (sz <=? 2)%nat then
                (Z.lor (Z.shiftl (Z.land s0 0x1F) 6) (Z.land s1 0x3F), 2%nat)
              else
                match rest1 with
                | [] => (RuneError, 1%nat)
                | s2 :: rest2 =>
                    if negb (cont s2) then (RuneError, 1%nat)
                    else if (sz <=? 3)%nat then
                      (Z.lor (Z.lor (Z.shiftl (Z.land s0 0x0F) 12)
                                    (Z.shiftl (Z.land s1 0x3F) 6))
                             (Z.land s2 0x3F), 3%nat)
                    else
                      match rest2 with
                      | [] => (RuneError, 1%nat)
                      | s3 :: _ =>
                          if negb (cont s3) then (RuneError, 1%nat)
                          else
                            (Z.lor (Z.lor (Z.lor
                               (Z.shiftl (Z.land s0 0x07) 18)
                               (Z.shiftl (Z.land s1 0x3F) 12))
                               (Z.shiftl (Z.land s2 0x3F) 6))
                               (Z.land s3 0x3F), 4%nat)
                      end
                end
          end
      end
  end.

(** The runes of [s], as [for _, r := range s] yields them; [skip] bytes
    belong to the rune decoded last. *)
Fixpoint runes_from (skip : nat) (s : string) : list Z :=
  match s with
  | EmptyString => []
  | String _ s' =>
      match skip with
      | S k => runes_from k s'
      | O => let '(r, size) := DecodeRuneInString s in
             r :: runes_from (size - 1) s'
      end
  end.

Definition runes (s : string) : list Z := runes_from 0 s.

End utf8.

(** ** package regexp, for the syntax the client's pattern is written in *)
Module regexp.

(** The syntax tree of [regexp/syntax], with binary concatenation and
    alternation.  A class is a list of rune ranges, negated or not. *)
Inductive Regexp : Type :=
| OpEmptyMatch
| OpBeginText                                   (* ^  *)
| OpEndText                                     (* $  *)
| OpLiteral (r : Z)
| OpCharClass (negated : bool) (ranges : list (Z * Z))
| OpCapture (sub : Regexp)                      (* (...) *)
| OpRepeat (n : nat) (sub : Regexp)             (* x{n} *)
| OpConcat (a b : Regexp)
| OpAlternate (a b : Regexp).

Definition in_ranges (r : Z) (ranges : list (Z * Z)) : bool :=
  existsb (fun '(lo, hi) => (lo <=? r)%Z && (r <=? hi)%Z) ranges.

(** A negated class matches every rune outside its ranges, the newline
    included (Go compiles with the Perl flags, which set [ClassNL]). *)
Definition class_matches (negated : bool) (ranges : list (Z * Z)) (r : Z) : bool :=
  if negated then negb (in_ranges r ranges) else in_ranges r ranges.

(** [matches re k bot input]: [re] matches a prefix of [input] and the
    continuation [k] accepts what is left.  [bot] says that [input] starts
    at the beginning of the text. *)
Fixpoint matches (re : Regexp) (k : bool -> list Z -> bool)
         (bot : bool) (input : list Z) {struct re} : bool :=
  match re with
  | OpEmptyMatch => k bot input
  | OpBeginText => if bot then k bot input else false
  | OpEndText => match input with [] => k bot input | _ :: _ => false end
  | OpLiteral r =>
      match input with
      | c :: rest => (c =? r)%Z && k false rest
      | [] => false
      end
  | OpCharClass negated ranges =>
      match input with
      | c :: rest => class_matches negated ranges c && k false rest
      | [] => false
      end
  | OpCapture sub => matches sub k bot input
  | OpRepeat n sub =>
      (fix rep (n : nat) : bool -> list Z -> bool :=
         match n with
         | O => k
         | S n' => fun bot input => matches sub (rep n') bot input
         end) n bot input
  | OpConcat a b => matches a (fun bot' rest => matches b k bot' rest) bot input
  | OpAlternate a b => matches a k bot input || matches b k bot input
  end.

Definition accept : bool -> list Z -> bool := fun _ _ => true.

(** An unanchored search: a match may start at any position of the text. *)
Fixpoint search (re : Regexp) (bot : bool) (input : list Z) : bool :=
  matches re accept bot input ||
  match input with
  | [] => false
  | _ :: rest => search re false rest
  end.

(** [re.MatchString(s)] *)
Definition MatchString (re : Regexp) (s : string) : bool :=
  search re true (utf8.runes s).

(** *** the parser, for ASCII patterns made of literals, classes, groups,
    alternation, [\d], [{n}], [^] and [$] *)

Definition special (c : ascii) : bool :=
  strings.ContainsByte "\.+*?()|[]{}^$" c.

Definition isdigit (c : ascii) : bool :=
  let n := N_of_ascii c in ((48 <=? n) && (n <=? 57))%N.

Definition digitval (c : ascii) : nat := N.to_nat (N_of_ascii c - 48).

Definition rune (c : ascii) : Z := byte_of_ascii c.

(** the items of a class up to its closing bracket *)
Fixpoint parseClassItems (s : string) (acc : list (Z * Z))
  : option (list (Z * Z) * string) :=
  match s with
  | EmptyString => None                       (* missing closing ] *)
  | String c s' =>
      if Ascii.eqb c "]" then Some (acc, s')
      else if Ascii.eqb c "\" then None
      else match s' with
           | String d (String hi s'') =>
               if Ascii.eqb d "-" && negb (Ascii.eqb hi "]") then
                 if (rune hi <? rune c)%Z then None   (* bad range *)
                 else parseClassItems s'' (acc ++ [(rune c, rune hi)])
               else parseClassItems s' (acc ++ [(rune c, rune c)])
           | _ => parseClassItems s' (acc ++ [(rune c, rune c)])
           end
  end.

Definition parseClass (s : string) : option (Regexp * string) :=
  let '(negated, s) :=
    match s with
    | String c s' => if Ascii.eqb c "^" then (true, s') else (false, s)
    | EmptyString => (false, s)
    end in
  match parseClassItems s [] with
  | Some (ranges, rest) => Some (OpCharClass negated ranges, rest)
  | None => None
  end.

(** a decimal repeat count and the closing brace *)
Fixpoint parseCount (s : string) (acc : option nat) : option (nat * string) :=
  match s with
  | EmptyString => None
  | String c s' =>
      if Ascii.eqb c "}" then
        match acc with Some n => Some (n, s') | None => None end
      else if isdigit c then
        parseCount s' (Some (10 * default 0%nat acc + digitval c)%nat)
      else None
  end.

Definition parseRepeat (atom : Regexp) (s : string) : option (Regexp * string) :=
  match s with
  | String c s' =>
      if Ascii.eqb c "{" then
        match parseCount s' None with
        | Some (n, rest) => Some (OpRepeat n atom, rest)
        | None => None
        end
      else if strings.ContainsByte "*+?" c then None   (* not modelled *)
      else Some (atom, s)
  | EmptyString => Some (atom, s)
  end.

Definition concat (a b : Regexp) : Regexp :=
  match a with OpEmptyMatch => b | _ => OpConcat a b end.

(** [parseAlt fuel s]: an alternation, up to a closing parenthesis or the
    end of the pattern.  [fuel] bounds the nesting and the length. *)
Fixpoint parseAlt (fuel : nat) (s : string) : option (Regexp * string) :=
  match fuel with
  | O => None
  | S fuel' =>
      let parseAtom (s : string) : option (Regexp * string) :=
        match s with
        | EmptyString => None
        | String c s' =>
            if Ascii.eqb c "^" then Some (OpBeginText, s')
            else if Ascii.eqb c "$" then Some (OpEndText, s')
            else if Ascii.eqb c "[" then parseClass s'
            else if Ascii.eqb c "(" then
              match parseAlt fuel' s' with
              | Some (sub, String c' rest) =>
                  if Ascii.eqb c' ")" then Some (OpCapture sub, rest) else None
              | _ => None
              end
            else if Ascii.eqb c "\" then
              match s' with
              | String e rest =>
                  if Ascii.eqb e "d" then Some (OpCharClass false [(48, 57)%Z], rest)
                  else if special e then Some (OpLiteral (rune e), rest)
                  else None
              | EmptyString => None
              end
            else if special c then None
            else if (128 <=? N_of_ascii c)%N then None
            else Some (OpLiteral (rune c), s')
        end in
      let fix parseConcat (n : nat) (acc : Regexp) (s : string)
        : option (Regexp * string) :=
        match n with
        | O => None
        | S n' =>
            match s with
            | EmptyString => Some (acc, s)
            | String c _ =>
                if Ascii.eqb c "|" || Ascii.eqb c ")" then Some (acc, s)
                else match parseAtom s with
                     | Some (atom, rest) =>
                         match parseRepeat atom rest with
                         | Some (item, rest') => parseConcat n' (concat acc item) rest'
                         | None => None
                         end
                     | None => None
                     end
            end
        end in
      match parseConcat fuel OpEmptyMatch s with
      | Some (lhs, String c rest) =>
          if Ascii.eqb c "|" then
            match parseAlt fuel' rest with
            | Some (rhs, rest') => Some (OpAlternate lhs rhs, rest')
            | None => None
            end
          else Some (lhs, String c rest)
      | other => other
      end
  end.

(** [regexp.Compile]: [None] when the pattern does not parse *)
Definition Compile (expr : string) : option Regexp :=
  match parseAlt (S (String.length expr)) expr with
  | Some (re, EmptyString) => Some re
  | _ => None
  end.

End regexp.

(** ** package net/url *)
Module url.

(** The kinds of escaping, one per part of a URL. *)
Inductive encoding : Type :=
| encodePath | encodePathSegment | encodeHost | encodeZone
| encodeUserPassword | encodeQueryComponent | encodeFragment.

Definition encoding_eqb (a b : encoding) : bool :=
  match a, b with
  | encodePath, encodePath | encodePathSegment, encodePathSegment
  | encodeHost, encodeHost | encodeZone, encodeZone
  | encodeUserPassword, encodeUserPassword
  | encodeQueryComponent, encodeQueryComponent
  | encodeFragment, encodeFragment => true
  | _, _ => false
  end.

Definition byte_in (c : ascii) (set : string) : bool :=
  strings.ContainsByte set c.

Definition between (lo hi c : ascii) : bool :=
  ((N_of_ascii lo <=? N_of_ascii c) && (N_of_ascii c <=? N_of_ascii hi))%N.

Definition isalnum (c : ascii) : bool :=
  between "a" "z" c || between "A" "Z" c || between "0" "9" c.

Definition dquote : ascii := "034"%char.

Definition ishex (c : ascii) : bool :=
  between "0" "9" c || between "a" "f" c || between "A" "F" c.

Definition unhex (c : ascii) : N :=
  if between "0" "9" c then N_of_ascii c - 48
  else if between "a" "f" c then N_of_ascii c - 97 + 10
  else if between "A" "F" c then N_of_ascii c - 65 + 10
  else 0.

Definition upperhex (n : N) : ascii :=
  match String.get (N.to_nat n) "0123456789ABCDEF" with
  | Some c => c
  | None => "0"%char
  end.

(** [shouldEscape(c, mode)]: must the byte [c] be written as [%XX] in the
    part of the URL that [mode] names. *)
Definition shouldEscape (c : ascii) (mode : encoding) : bool :=
  if isalnum c then false
  else if (encoding_eqb mode encodeHost || encoding_eqb mode encodeZone)
          && (byte_in c "!$&'()*+,;=:[]<>" || Ascii.eqb c dquote) then false
  else if byte_in c "-_.~" then false
  else if byte_in c "$&+,/:;=?@" then
    match mode with
    | encodePath => Ascii.eqb c "?"
    | encodePathSegment => byte_in c "/;,?"
    | encodeUserPassword => byte_in c "@/?:"
    | encodeQueryComponent => true
    | encodeFragment => false
    | encodeHost | encodeZone => true
    end
  else if encoding_eqb mode encodeFragment && byte_in c "!()*" then false
  else true.

(** [escape(s, mode)] *)
Fixpoint escape (s : string) (mode : encoding) : string :=
  match s with
  | EmptyString => EmptyString
  | String c s' =>
      if shouldEscape c mode then
        if Ascii.eqb c " " && encoding_eqb mode encodeQueryComponent
        then String "+" (escape s' mode)
        else String "%" (String (upperhex (N_of_ascii c / 16))
               (String (upperhex (N_of_ascii c mod 16)) (escape s' mode)))
      else String c (escape s' mode)
  end.

(** [unescape(s, mode)]; [None] stands for an [EscapeError] or an
    [InvalidHostError]. *)
Fixpoint unescape (s : string) (mode : encoding) : option string :=
  match s with
  | EmptyString => Some EmptyString
  | String c s' =>
      if Ascii.eqb c "%" then
        match s' with
        | String a (String b rest) =>
            if negb (ishex a && ishex b) then None
            else
              let v := ascii_of_N (unhex a * 16 + unhex b) in
              let is25 := Ascii.eqb a "2" && Ascii.eqb b "5" in
              if encoding_eqb mode encodeHost && (unhex a <? 8)%N && negb is25
              then None
              else if encoding_eqb mode encodeZone && negb is25
                      && negb (Ascii.eqb v " ") && shouldEscape v encodeHost
              then None
              else String v <$> unescape rest mode
        | _ => None
        end
      else if Ascii.eqb c "+" then
        String (if encoding_eqb mode encodeQueryComponent then " "%char else "+"%char)
          <$> unescape s' mode
      else if (encoding_eqb mode encodeHost || encoding_eqb mode encodeZone)
              && (N_of_ascii c <? 128)%N && shouldEscape c encodeHost
      then None
      else String c <$> unescape s' mode
  end.

Definition QueryEscape (s : string) : string := escape s encodeQueryComponent.
Definition QueryUnescape (s : string) : option string :=
  unescape s encodeQueryComponent.

(** *** [Values]: [map[string][]string] *)

(** [v.Set(key, value)] replaces whatever [key] was bound to. *)
Definition Set_ (v : gmap string (list string)) (key value : string)
  : gmap string (list string) :=
  <[key := [value]]> v.

(** One turn of the loop of [parseQuery] on the text [key] between two
    ampersands; [None] records an error, after which the pair is dropped
    and the loop goes on ([continue]). *)
Definition parsePair (key : string) : option (option (string * string)) :=
  if strings.ContainsByte key ";" then None
  else if strings.eqb key "" then Some None
  else
    let '(key, value, _) := strings.CutByte key "=" in
    match QueryUnescape key with
    | None => None
    | Some key =>
        match QueryUnescape value with
        | None => None
        | Some value => Some (Some (key, value))
        end
    end.

(** [m[key] = append(m[key], value)] *)
Definition add (m : gmap string (list string)) (key value : string)
  : gmap string (list string) :=
  <[key := (m !!! key ++ [value])%list]> m.

Definition parseStep (acc : gmap string (list string) * bool) (key : string)
  : gmap string (list string) * bool :=
  let '(m, err) := acc in
  match parsePair key with
  | None => (m, true)
  | Some None => (m, err)
  | Some (Some (key, value)) => (add m key value, err)
  end.

(** [ParseQuery(query)]: the values parsed, and whether an error was met.
    The loop cuts [query] at each ampersand; the pieces are those of
    [strings.Split]. *)
Definition ParseQuery (query : string) : gmap string (list string) * bool :=
  fold_left parseStep (strings.SplitByte query "&") (∅, false).

(** [sort.Strings] orders byte-wise, as [String.le] does. *)
Definition sortedKeys (v : gmap string (list string)) : list string :=
  merge_sort String.le (fst <$> map_to_list v).

(** what [Encode] writes for one value of one key *)
Definition writePair (keyEscaped : string) (buf value : string) : string :=
  (if strings.eqb buf "" then buf else buf ++ "&")
    ++ keyEscaped ++ "=" ++ QueryEscape value.

(** [v.Encode()]: the pairs [key=value], escaped, sorted by key and joined
    by ampersands. *)
Definition Encode (v : gmap string (list string)) : string :=
  fold_left (fun buf k => fold_left (writePair (QueryEscape k)) (v !!! k) buf)
            (sortedKeys v) "".

(** *** [URL] *)

Record Userinfo := { username : string; password : string; passwordSet : bool }.

Record URL := {
  Scheme : string;
  Opaque : string;
  User : option Userinfo;
  Host : string;
  Path : string;
  RawPath : string;
  OmitHost : bool;
  ForceQuery : bool;
  RawQuery : string;
  Fragment : string;
  RawFragment : string
}.

Definition emptyURL : URL :=
  {| Scheme := ""; Opaque := ""; User := None; Host := ""; Path := "";
     RawPath := ""; OmitHost := false; ForceQuery := false; RawQuery := "";
     Fragment := ""; RawFragment := "" |}.

(** [u.RawQuery = q] *)
Definition setRawQuery (u : URL) (q : string) : URL :=
  {| Scheme := Scheme u; Opaque := Opaque u; User := User u; Host := Host u;
     Path := Path u; RawPath := RawPath u; OmitHost := OmitHost u;
     ForceQuery := ForceQuery u; RawQuery := q;
     Fragment := Fragment u; RawFragment := RawFragment u |}.

Fixpoint stringContainsCTLByte (s : string) : bool :=
  match s with
  | EmptyString => false
  | String c s' =>
      (N_of_ascii c <? 32)%N || (N_of_ascii c =? 127)%N || stringContainsCTLByte s'
  end.

(** [getScheme]: [Some (scheme, rest)], or [None] for a missing protocol
    scheme (a leading colon). *)
Fixpoint getScheme_from (i : nat) (seen rawURL s : string) : option (string * string) :=
  match s with
  | EmptyString => Some ("", rawURL)
  | String c s' =>
      if between "a" "z" c || between "A" "Z" c then
        getScheme_from (S i) (seen ++ String c "") rawURL s'
      else if between "0" "9" c || byte_in c "+-." then
        match i with
        | O => Some ("", rawURL)
        | S _ => getScheme_from (S i) (seen ++ String c "") rawURL s'
        end
      else if Ascii.eqb c ":" then
        match i with
        | O => None
        | S _ => Some (seen, s')
        end
      else Some ("", rawURL)
  end.

Definition getScheme (rawURL : string) : option (string * string) :=
  getScheme_from 0 "" rawURL rawURL.

Fixpoint all_digits (s : string) : bool :=
  match s with
  | EmptyString => true
  | String c s' => between "0" "9" c && all_digits s'
  end.

Definition validOptionalPort (port : string) : bool :=
  match port with
  | EmptyString => true
  | String c rest => Ascii.eqb c ":" && all_digits rest
  end.

Fixpoint validUserinfo (s : string) : bool :=
  match s with
  | EmptyString => true
  | String c s' =>
      (isalnum c || byte_in c "-._:~!$&'()*+,;=%@") && validUserinfo s'
  end.

(** the offset of the first ["%25"] in [s], as [(before, from there on)] *)
Fixpoint cutZone (s : string) : option (string * string) :=
  if strings.HasPrefix s "%25" then Some ("", s)
  else match s with
       | EmptyString => None
       | String c s' =>
           match cutZone s' with
           | Some (before, rest) => Some (String c before, rest)
           | None => None
           end
       end.

(** [parseHost] *)
Definition parseHost (host : string) : option string :=
  if strings.HasPrefix host "[" then
    match strings.LastCutByte host "]" with
    | None => None                                 (* missing ']' in host *)
    | Some (inside, colonPort) =>
        if negb (validOptionalPort colonPort) then None
        else match cutZone inside with
             | Some (h1, zone) =>
                 host1 ← unescape h1 encodeHost;
                 host2 ← unescape zone encodeZone;
                 host3 ← unescape (String "]" colonPort) encodeHost;
                 Some (host1 ++ host2 ++ host3)
             | None => unescape host encodeHost
             end
    end
  else
    match strings.LastCutByte host ":" with
    | Some (_, port) =>
        if negb (validOptionalPort (String ":" port)) then None
        else unescape host encodeHost
    | None => unescape host encodeHost
    end.

(** [parseAuthority] *)
Definition parseAuthority (authority : string) : option (option Userinfo * string) :=
  match strings.LastCutByte authority "@" with
  | None => host ← parseHost authority; Some (None, host)
  | Some (userinfo, hostpart) =>
      host ← parseHost hostpart;
      if negb (validUserinfo userinfo) then None
      else if negb (strings.ContainsByte userinfo ":") then
        name ← unescape userinfo encodeUserPassword;
        Some (Some {| username := name; password := ""; passwordSet := false |}, host)
      else
        let '(name, pass, _) := strings.CutByte userinfo ":" in
        name ← unescape name encodeUserPassword;
        pass ← unescape pass encodeUserPassword;
        Some (Some {| username := name; password := pass; passwordSet := true |}, host)
  end.

(** [u.setPath(p)]: the decoded path, and the raw one when it is not the
    default encoding of the decoded one. *)
Definition setPath (p : string) : option (string * string) :=
  path ← unescape p encodePath;
  Some (path, if strings.eqb p (escape path encodePath) then "" else p).

Fixpoint validEncoded (s : string) (mode : encoding) : bool :=
  match s with
  | EmptyString => true
  | String c s' =>
      (byte_in c "!$&'()*+,;=:@[]%" || negb (shouldEscape c mode))
      && validEncoded s' mode
  end.

(** [parse(rawURL, viaRequest = false)] *)
Definition parse (rawURL : string) : option URL :=
  if stringContainsCTLByte rawURL then None
  else if strings.eqb rawURL "*" then
    Some {| Scheme := ""; Opaque := ""; User := None; Host := ""; Path := "*";
            RawPath := ""; OmitHost := false; ForceQuery := false;
            RawQuery := ""; Fragment := ""; RawFragment := "" |}
  else
    '(scheme, rest) ← getScheme rawURL;
    let scheme := strings.ToLower scheme in
    (* a single question mark that ends [rest] forces an empty query;
       otherwise the query is what follows the first question mark *)
    let '(rest, after, found) := strings.CutByte rest "?" in
    let forceQuery := found && strings.eqb after "" in
    let rawQuery := after in
    let opaque := negb (strings.HasPrefix rest "/") && negb (strings.eqb scheme "") in
    let colonInFirstSegment :=
      negb (strings.HasPrefix rest "/") && strings.eqb scheme "" &&
      (let '(segment, _, _) := strings.CutByte rest "/" in
       strings.ContainsByte segment ":") in
    if opaque then
      Some {| Scheme := scheme; Opaque := rest; User := None; Host := "";
              Path := ""; RawPath := ""; OmitHost := false;
              ForceQuery := forceQuery; RawQuery := rawQuery;
              Fragment := ""; RawFragment := "" |}
    else if colonInFirstSegment then None
    else
      let hasAuthority :=
        (negb (strings.eqb scheme "") || negb (strings.HasPrefix rest "///"))
        && strings.HasPrefix rest "//" in
      '(user, host, rest') ←
        (if hasAuthority then
           let '(authority, after, found) :=
             strings.CutByte (String.substring 2 (String.length rest) rest) "/" in
           '(user, host) ← parseAuthority authority;
           Some (user, host, if found then String "/" after else "")
         else Some (None, "", rest));
      let omitHost :=
        negb hasAuthority && negb (strings.eqb scheme "")
        && strings.HasPrefix rest "/" in
      '(path, rawPath) ← setPath rest';
      Some {| Scheme := scheme; Opaque := ""; User := user; Host := host;
              Path := path; RawPath := rawPath; OmitHost := omitHost;
              ForceQuery := forceQuery; RawQuery := rawQuery;
              Fragment := ""; RawFragment := "" |}.

(** [u.setFragment(f)] *)
Definition setFragment (u : URL) (f : string) : option URL :=
  frag ← unescape f encodeFragment;
  Some {| Scheme := Scheme u; Opaque := Opaque u; User := User u;
          Host := Host u; Path := Path u; RawPath := RawPath u;
          OmitHost := OmitHost u; ForceQuery := ForceQuery u;
          RawQuery := RawQuery u; Fragment := frag;
          RawFragment :=
            if strings.eqb f (escape frag encodeFragment) then "" else f |}.

(** [url.Parse(rawURL)]; [None] stands for the [nil, err] it returns on a
    URL it rejects. *)
Definition Parse (rawURL : string) : option URL :=
  let '(u, frag, _) := strings.CutByte rawURL "#" in
  url ← parse u;
  if strings.eqb frag "" then Some url else setFragment url frag.

(** [u.EscapedPath()] *)
Definition EscapedPath (u : URL) : string :=
  if negb (strings.eqb (RawPath u) "") && validEncoded (RawPath u) encodePath
     && match unescape (RawPath u) encodePath with
        | Some p => strings.eqb p (Path u)
        | None => false
        end
  then RawPath u
  else if strings.eqb (Path u) "*" then "*"
  else escape (Path u) encodePath.

(** [u.EscapedFragment()] *)
Definition EscapedFragment (u : URL) : string :=
  if negb (strings.eqb (RawFragment u) "")
     && validEncoded (RawFragment u) encodeFragment
     && match unescape (RawFragment u) encodeFragment with
        | Some f => strings.eqb f (Fragment u)
        | None => false
        end
  then RawFragment u
  else escape (Fragment u) encodeFragment.

Definition userString (ui : Userinfo) : string :=
  escape (username ui) encodeUserPassword
    ++ (if passwordSet ui then ":" ++ escape (password ui) encodeUserPassword
        else "").

Definition isSome {A} (o : option A) : bool :=
  match o with Some _ => true | None => false end.

(** What [u.String()] writes before the query: scheme, opaque part or
    authority and path. *)
Definition stringBeforeQuery (u : URL) : string :=
  let scheme := if strings.eqb (Scheme u) "" then "" else Scheme u ++ ":" in
  if negb (strings.eqb (Opaque u) "") then scheme ++ Opaque u
  else
    let authority :=
      if negb (strings.eqb (Scheme u) "") || negb (strings.eqb (Host u) "")
         || isSome (User u) then
        if OmitHost u && strings.eqb (Host u) "" && negb (isSome (User u))
        then ""
        else
          (if negb (strings.eqb (Host u) "") || negb (strings.eqb (Path u) "")
              || isSome (User u) then "//" else "")
          ++ match User u with Some ui => userString ui ++ "@" | None => "" end
          ++ (if strings.eqb (Host u) "" then "" else escape (Host u) encodeHost)
      else "" in
    let path := EscapedPath u in
    let slash :=
      if negb (strings.eqb path "") && negb (strings.HasPrefix path "/")
         && negb (strings.eqb (Host u) "") then "/" else "" in
    let buf := scheme ++ authority ++ slash in
    let dot :=
      if strings.eqb buf "" then
        let '(segment, _, _) := strings.CutByte path "/" in
        if strings.ContainsByte segment ":" then "./" else ""
      else "" in
    buf ++ dot ++ path.

(** ... and after it. *)
Definition stringAfterQuery (u : URL) : string :=
  if strings.eqb (Fragment u) "" then "" else "#" ++ EscapedFragment u.

(** [u.String()] *)
Definition String_ (u : URL) : string :=
  stringBeforeQuery u
    ++ (if ForceQuery u || negb (strings.eqb (RawQuery u) "")
        then "?" ++ RawQuery u else "")
    ++ stringAfterQuery u.

End url.

(* ===================================================================== *)
(** * Part II: package webhook                                            *)
(* ===================================================================== *)

(** ** The data model *)

(** [LinkMsg] *)
Record LinkMsg := {
  LinkMsg_Title : string;
  LinkMsg_MessageURL : string;
  LinkMsg_PicURL : string
}.

(** one element of [ActionCard.Buttons] *)
Record Button := { Button_Title : string; Button_ActionURL : string }.

(** [ActionCard] *)
Record ActionCard := {
  ActionCard_Text : string;
  ActionCard_Title : string;
  SingleTitle : string;
  SingleURL : string;
  BtnOrientation : string;
  HideAvatar : string;
  Buttons : list Button
}.

Record TextPart := { Content : string }.
Record LinkPart := {
  Link_Title : string; Link_Text : string;
  Link_PicURL : string; Link_MessageURL : string
}.
Record MarkdownPart := { Markdown_Title : string; Markdown_Text : string }.
Record FeedCardPart := { Links : list LinkMsg }.
Record AtPart := { AtMobiles : list string; IsAtAll : bool }.

(** [PayLoad]: one struct with a sub-struct per message type *)
Record PayLoad := {
  MsgType : string;
  Text : TextPart;
  Link : LinkPart;
  Markdown : MarkdownPart;
  PayLoad_ActionCard : ActionCard;
  FeedCard : FeedCardPart;
  At : AtPart
}.

(** the zero values Go gives the fields a composite literal leaves out *)
Definition zeroText : TextPart := {| Content := "" |}.
Definition zeroLink : LinkPart :=
  {| Link_Title := ""; Link_Text := ""; Link_PicURL := ""; Link_MessageURL := "" |}.
Definition zeroMarkdown : MarkdownPart := {| Markdown_Title := ""; Markdown_Text := "" |}.
Definition zeroActionCard : ActionCard :=
  {| ActionCard_Text := ""; ActionCard_Title := ""; SingleTitle := "";
     SingleURL := ""; BtnOrientation := ""; HideAvatar := ""; Buttons := [] |}.
Definition zeroFeedCard : FeedCardPart := {| Links := [] |}.
Definition zeroAt : AtPart := {| AtMobiles := []; IsAtAll := false |}.

(** [WebHook] *)
Record WebHook := {
  AccessToken : string;
  APIURL : string;
  Secret : string
}.

(** [Response] *)
Record Response := { ErrorCode : Z; ErrorMessage : string }.

Definition zeroResponse : Response := {| ErrorCode := 0; ErrorMessage := "" |}.

(** A Go [error]: [None] is [nil], [Some msg] an error whose [Error()] is
    [msg] (the client only makes errors with [errors.New] and
    [fmt.Errorf]). *)
Definition error := option string.

(** ** The world outside the package *)

(** What [http.Post] hands back: an error, or a response whose body
    [ioutil.ReadAll] then reads. *)
Inductive PostResult : Type :=
| PostError (err : string)
| PostResponse (StatusCode : Z) (Body : string).

(** One call of [http.Post(url, contentType, body)]. *)
Record Request := {
  Request_URL : string;
  Request_ContentType : string;
  Request_Body : string
}.

Record Runtime := {
  (** [time.Now().UnixNano()] *)
  UnixNano : Z;
  (** the answer of the network to a POST *)
  http_Post : string -> string -> string -> PostResult;
  (** [json.Marshal] of a [PayLoad] (it cannot fail on this type) *)
  json_Marshal : PayLoad -> string;
  (** [json.Unmarshal(body, &result)]: the value [result] is left with, and
      the error *)
  json_Unmarshal : string -> Response -> Response * error
}.

(** ** Methods on [*WebHook]: a state and panic monad

    The state holds the client a method is called on (its receiver points
    to it) and the requests sent so far.  A computation returns, or panics
    as Go does on a nil pointer dereference. *)
Record State := {
  hook : WebHook;
  sent : list Request
}.

Inductive Outcome (A : Type) : Type :=
| Returned (a : A)
| Panicked (reason : string).
Arguments Returned {A} a.
Arguments Panicked {A} reason.

Definition M (A : Type) : Type := State -> Outcome A * State.

Definition ret {A} (a : A) : M A := fun s => (Returned a, s).

Definition bind {A B} (m : M A) (f : A -> M B) : M B :=
  fun s => match m s with
           | (Returned a, s') => f a s'
           | (Panicked reason, s') => (Panicked reason, s')
           end.

Definition panic {A} (reason : string) : M A := fun s => (Panicked reason, s).

#[global] Instance M_ret : MRet M := @ret.
#[global] Instance M_bind : MBind M := fun A B f m => bind m f.

(** [*w] *)
Definition receiver : M WebHook := fun s => (Returned (hook s), s).

(** [*w = w'] *)
Definition assign (w' : WebHook) : M unit :=
  fun s => (Returned tt, {| hook := w'; sent := sent s |}).

(** ** The package *)

Definition baseAPI : string := "https://oapi.dingtalk.com/robot/send".

(** [NewWebHook] *)
Definition NewWebHook (accessToken : string) : WebHook :=
  {| AccessToken := accessToken; APIURL := baseAPI; Secret := "" |}.

(** [resetAPIURL] *)
Definition resetAPIURL : M unit :=
  w ← receiver;
  assign {| AccessToken := AccessToken w;
            APIURL := "https://oapi.dingtalk.com/robot/send";
            Secret := Secret w |}.

Definition regStr : string := "^1([38][0-9]|14[57]|5[^4])\d{8}$".

(** [regexp.MustCompile(regStr)]; it would panic when the package is
    loaded if [regStr] did not compile, which [regPattern_compiles] below
    rules out. *)
Definition regPattern : regexp.Regexp :=
  default regexp.OpEmptyMatch (regexp.Compile regStr).

(** [addParamsToURL].  The error of [url.Parse] is dropped: on a URL that
    does not parse [u] is nil and [u.RawQuery] panics.  The error of
    [url.ParseQuery] is dropped too; [q] is then what could be parsed.  The
    loop sets each key of [params] once, in no particular order; the keys
    are distinct, so the result is the same in any order. *)
Definition addParamsToURL (params : gmap string string) (originURL : string)
  : option string :=
  match url.Parse originURL with
  | None => None                       (* nil pointer dereference *)
  | Some u =>
      let '(q, _) := url.ParseQuery (url.RawQuery u) in
      let q := map_fold (fun key val q => url.Set_ q key val) q params in
      Some (url.String_ (url.setRawQuery u (url.Encode q)))
  end.

Section WithRuntime.

Variable rt : Runtime.

(** [http.Post]: the request goes out and is answered *)
Definition post (u contentType body : string) : M PostResult :=
  fun s =>
    (Returned (http_Post rt u contentType body),
     {| hook := hook s;
        sent := (sent s ++ [ {| Request_URL := u;
                                Request_ContentType := contentType;
                                Request_Body := body |} ])%list |}).

(** [getSign] *)
Definition getSign : M (string * string) :=
  w ← receiver;
  let timestamp := strconv.FormatInt (Z.quot (UnixNano rt) 1000000) in
  let message := timestamp ++ String "010" "" ++ Secret w in
  let h := hmac.New (bytes_of_string (Secret w)) in
  let h := hmac.Write h (bytes_of_string message) in
  ret (timestamp, base64.EncodeToString (hmac.Sum h [])).

(** [sendPayload] *)
Definition sendPayload (payload : PayLoad) : M error :=
  w ← receiver;
  let params : gmap string string := ∅ in
  let '(params, apiURL) :=
    if strings.Contains (AccessToken w) (APIURL w)
    then (params, AccessToken w)
    else (<["access_token" := AccessToken w]> params, APIURL w) in
  params ←
    (if negb (strings.eqb (Secret w) "") then
       '(timestamp, sign) ← getSign;
       ret (<["sign" := sign]> (<["timestamp" := timestamp]> params))
     else ret params);
  (* add params *)
  apiURL ←
    (if (0 <? size params)%nat then
       match addParamsToURL params apiURL with
       | Some u => ret u
       | None => panic "invalid memory address or nil pointer dereference"
       end
     else ret apiURL);
  (* get config *)
  let bs := json_Marshal rt payload in
  (* request api *)
  resp ← post apiURL "application/json" bs;
  match resp with
  | PostError err => ret (Some ("api request error: " ++ err))
  | PostResponse StatusCode body =>
      (* api unusual *)
      if negb (200 =? StatusCode)%Z then
        ret (Some ("api response error: " ++ strconv.FormatInt StatusCode))
      else
        (* json decode *)
        let '(result, err) := json_Unmarshal rt body zeroResponse in
        match err with
        | Some e =>
            ret (Some ("response struct error: response is not a json anymore, " ++ e))
        | None =>
            if negb (0 =? ErrorCode result)%Z then
              ret (Some ("api custom error: {code: "
                         ++ strconv.FormatInt (ErrorCode result)
                         ++ ", msg: " ++ ErrorMessage result ++ "}"))
            else ret None
        end
  end.

(** [SendTextMsg] *)
Definition SendTextMsg (content : string) (isAtAll : bool) (mobiles : list string)
  : M error :=
  sendPayload {|
    MsgType := "text";
    Text := {| Content := content |};
    Link := zeroLink; Markdown := zeroMarkdown;
    PayLoad_ActionCard := zeroActionCard; FeedCard := zeroFeedCard;
    At := {| AtMobiles := mobiles; IsAtAll := isAtAll |} |}.

(** [SendLinkMsg] *)
Definition SendLinkMsg (title content picURL msgURL : string) : M error :=
  sendPayload {|
    MsgType := "link";
    Text := zeroText;
    Link := {| Link_Title := title; Link_Text := content;
               Link_PicURL := picURL; Link_MessageURL := msgURL |};
    Markdown := zeroMarkdown; PayLoad_ActionCard := zeroActionCard;
    FeedCard := zeroFeedCard; At := zeroAt |}.

(** the body of the loop of [SendMarkdownMsg], on the pair
    [(content, firstLine)] *)
Definition mention (acc : string * bool) (mobile : string) : string * bool :=
  let '(content, firstLine) := acc in
  if regexp.MatchString regPattern mobile then
    let content := if negb firstLine then content ++ "#####" else content in
    (content ++ " @" ++ mobile, true)
  else (content, firstLine).

(** [SendMarkdownMsg] *)
Definition SendMarkdownMsg (title content : string) (isAtAll : bool)
           (mobiles : list string) : M error :=
  let firstLine := false in
  let '(content, _) := fold_left mention mobiles (content, firstLine) in
  sendPayload {|
    MsgType := "markdown";
    Text := zeroText; Link := zeroLink;
    Markdown := {| Markdown_Title := title; Markdown_Text := content |};
    PayLoad_ActionCard := zeroActionCard; FeedCard := zeroFeedCard;
    At := {| AtMobiles := mobiles; IsAtAll := isAtAll |} |}.

(** the loop [for i := 0; i < len(linkTitles); i++] of
    [SendActionCardMsg]; [linkUrls[i]] panics when [i] is out of range *)
Fixpoint inject (linkTitles linkUrls : list string) (i n : nat)
         (buttons : list Button) : option (list Button) :=
  match n with
  | O => Some buttons
  | S n' =>
      match linkTitles !! i, linkUrls !! i with
      | Some t, Some u =>
          inject linkTitles linkUrls (S i) n'
                 (buttons ++ [ {| Button_Title := t; Button_ActionURL := u |} ])%list
      | _, _ => None
      end
  end.

(** [SendActionCardMsg] *)
Definition SendActionCardMsg (title content : string)
           (linkTitles linkUrls : list string)
           (hideAvatar btnOrientation : bool) : M error :=
  (* validation is empty *)
  if (0 =? length linkTitles)%nat || (0 =? length linkUrls)%nat then
    ret (Some "links or titles is empty！")
  (* validation is equal *)
  else if negb (length linkUrls =? length linkTitles)%nat then
    ret (Some "links length and titles length is not equal！")
  else
    (* hide robot avatar *)
    let strHideAvatar := if hideAvatar then "1" else "0" in
    (* button sort *)
    let strBtnOrientation := if btnOrientation then "1" else "0" in
    (* inject to button *)
    match inject linkTitles linkUrls 0 (length linkTitles) [] with
    | None => panic "index out of range"
    | Some buttons =>
        sendPayload {|
          MsgType := "actionCard";
          Text := zeroText; Link := zeroLink; Markdown := zeroMarkdown;
          PayLoad_ActionCard :=
            {| ActionCard_Text := content; ActionCard_Title := title;
               SingleTitle := ""; SingleURL := "";
               BtnOrientation := strBtnOrientation;
               HideAvatar := strHideAvatar;
               Buttons := buttons |};
          FeedCard := zeroFeedCard; At := zeroAt |}
    end.

(** [SendLinkCardMsg] *)
Definition SendLinkCardMsg (messages : list LinkMsg) : M error :=
  sendPayload {|
    MsgType := "feedCard";
    Text := zeroText; Link := zeroLink; Markdown := zeroMarkdown;
    PayLoad_ActionCard := zeroActionCard;
    FeedCard := {| Links := messages |}; At := zeroAt |}.

End WithRuntime.

(* ===================================================================== *)
(** * Part III: definitions for the statements *)
(* ===================================================================== *)

(** ** The send path *)

(** [requestParams] and [requestURL] name what lines 96-112 of
    [sendPayload] compute, and [interpret] what lines 118-140 make of the
    answer: [sendPayload] is their composition around one [http.Post]. *)

Section SendPath.

Variable rt : Runtime.

Definition timestampNow : string :=
  strconv.FormatInt (Z.quot (UnixNano rt) 1000000).

Definition signNow (secret : string) : string :=
  base64.EncodeToString
    (hmac.Sum (hmac.Write (hmac.New (bytes_of_string secret))
                          (bytes_of_string (timestampNow ++ String "010" "" ++ secret)))
              []).

Definition requestBase (w : WebHook) : string :=
  if strings.Contains (AccessToken w) (APIURL w) then AccessToken w else APIURL w.

Definition requestParams (w : WebHook) : gmap string string :=
  let params : gmap string string :=
    if strings.Contains (AccessToken w) (APIURL w) then ∅
    else {[ "access_token" := AccessToken w ]} in
  if strings.eqb (Secret w) "" then params
  else <["sign" := signNow (Secret w)]> (<["timestamp" := timestampNow]> params).

Definition requestURL (w : WebHook) : option string :=
  if (0 <? size (requestParams w))%nat
  then addParamsToURL (requestParams w) (requestBase w)
  else Some (requestBase w).

Definition interpret (resp : PostResult) : error :=
  match resp with
  | PostError err => Some ("api request error: " ++ err)
  | PostResponse StatusCode body =>
      if (StatusCode =? 200)%Z then
        match json_Unmarshal rt body zeroResponse with
        | (_, Some e) =>
            Some ("response struct error: response is not a json anymore, " ++ e)
        | (result, None) =>
            if (ErrorCode result =? 0)%Z then None
            else Some ("api custom error: {code: "
                       ++ strconv.FormatInt (ErrorCode result)
                       ++ ", msg: " ++ ErrorMessage result ++ "}")
        end
      else Some ("api response error: " ++ strconv.FormatInt StatusCode)
  end.

Definition requestOf (u : string) (payload : PayLoad) : Request :=
  {| Request_URL := u; Request_ContentType := "application/json";
     Request_Body := json_Marshal rt payload |}.

End SendPath.

(** ** The kinds of failure *)

(** The client reports every failure as an error value made from a
    message.  The five kinds are told apart by the text they start with. *)

Definition TransportError (cause : string) : error :=
  Some ("api request error: " ++ cause).

Definition HTTPStatusError (StatusCode : Z) : error :=
  Some ("api response error: " ++ strconv.FormatInt StatusCode).

Definition MalformedResponseError (cause : string) : error :=
  Some ("response struct error: response is not a json anymore, " ++ cause).

Definition RemoteAPIError (code : Z) (msg : string) : error :=
  Some ("api custom error: {code: " ++ strconv.FormatInt code
        ++ ", msg: " ++ msg ++ "}").

(** the two sub-kinds of a validation error *)
Definition ValidationError_empty : error :=
  Some "links or titles is empty！".

Definition ValidationError_length_mismatch : error :=
  Some "links length and titles length is not equal！".

(** the runtime [rt] with another JSON decoder *)
Definition withUnmarshal (rt : Runtime)
           (decode : string -> Response -> Response * error) : Runtime :=
  {| UnixNano := UnixNano rt; http_Post := http_Post rt;
     json_Marshal := json_Marshal rt; json_Unmarshal := decode |}.

(** A runtime for the examples: the clock reads [now], the network gives
    [answer] to every request, and a response body is taken for the error
    message when it is not the text [ok]. *)
Definition exampleRuntime (now : Z) (answer : PostResult) : Runtime :=
  {| UnixNano := now;
     http_Post := fun _ _ _ => answer;
     json_Marshal := fun payload => MsgType payload;
     json_Unmarshal := fun body result =>
       if strings.eqb body "ok" then (result, None)
       else ({| ErrorCode := 310000; ErrorMessage := body |}, None) |}.

Definition emptyPayLoad : PayLoad :=
  {| MsgType := ""; Text := zeroText; Link := zeroLink; Markdown := zeroMarkdown;
     PayLoad_ActionCard := zeroActionCard; FeedCard := zeroFeedCard; At := zeroAt |}.

Definition fresh (w : WebHook) : State := {| hook := w; sent := [] |}.

(** ** Signing *)

(** HMAC as RFC 2104 defines it, over SHA-256:
    [H((K0 xor opad) || H((K0 xor ipad) || text))], where [K0] is the key
    (hashed first when longer than a block) padded with zeros to a block. *)
Definition HMAC_SHA256 (key text : bytes) : bytes :=
  let k := if (sha256.BlockSize <? length key)%nat then sha256.Sum256 key else key in
  let k0 := (k ++ repeat 0%Z (sha256.BlockSize - length k))%list in
  sha256.Sum256 (map (fun b => Z.lxor b 0x5c) k0
                 ++ sha256.Sum256 (map (fun b => Z.lxor b 0x36) k0 ++ text))%list.

Definition newline : string := String "010" "".

(** ** Mentions in [SendMarkdownMsg] *)

Definition matchesMobile (mobile : string) : bool :=
  regexp.MatchString regPattern mobile.

(** the inline mention of one mobile number *)
Definition atMention (mobile : string) : string := " @" ++ mobile.

Fixpoint concatAll (l : list string) : string :=
  match l with
  | [] => ""
  | x :: l' => x ++ concatAll l'
  end.

(** What the spec says is appended to the markdown text: a mention for
    each mobile number that matches the pattern, after one marker. *)
Definition mentions (mobiles : list string) : string :=
  match List.filter matchesMobile mobiles with
  | [] => ""
  | matching => "#####" ++ concatAll (map atMention matching)
  end.

(** ** The mobile-number pattern *)

(** *** The language of a regular expression *)

Definition isNil {A} (l : list A) : bool :=
  match l with [] => true | _ :: _ => false end.

(** [denote re bot eot w]: the word [w] is in the language of [re], when
    [w] starts at the beginning of the text ([bot]) and ends at its end
    ([eot]). *)
Fixpoint denote (re : regexp.Regexp) (bot eot : bool) (w : list Z) {struct re} : Prop :=
  match re with
  | regexp.OpEmptyMatch => w = []
  | regexp.OpBeginText => w = [] /\ bot = true
  | regexp.OpEndText => w = [] /\ eot = true
  | regexp.OpLiteral r => w = [r]
  | regexp.OpCharClass negated ranges =>
      exists c, w = [c] /\ regexp.class_matches negated ranges c = true
  | regexp.OpCapture sub => denote sub bot eot w
  | regexp.OpRepeat n sub =>
      (fix rep (n : nat) (bot : bool) (w : list Z) : Prop :=
         match n with
         | O => w = []
         | S n' =>
             exists w1 w2, w = (w1 ++ w2)%list
                           /\ denote sub bot (eot && isNil w2) w1
                           /\ rep n' (bot && isNil w1) w2
         end) n bot w
  | regexp.OpConcat a b =>
      exists w1 w2, w = (w1 ++ w2)%list
                    /\ denote a bot (eot && isNil w2) w1
                    /\ denote b (bot && isNil w1) eot w2
  | regexp.OpAlternate a b => denote a bot eot w \/ denote b bot eot w
  end.

(** *** The language of [regPattern] *)

Definition digitRune (r : Z) : Prop := (48 <= r <= 57)%Z.

(** The words [regPattern] matches, rune by rune: a [1], then one of
    three heads, then eight decimal digits.  The heads are [3] or [8] and a
    digit; [14] and [5] or [7]; [5] and any rune but [4]. *)
Definition mobileLanguage (rs : list Z) : Prop :=
  exists head digits,
    rs = (49%Z :: head ++ digits)%list
    /\ length digits = 8%nat /\ Forall digitRune digits
    /\ ((exists a b, head = [a; b] /\ (a = 51 \/ a = 56)%Z /\ digitRune b)
        \/ (exists c, head = [49; 52; c]%Z /\ (c = 53 \/ c = 55)%Z)
        \/ (exists c, head = [53%Z; c] /\ c <> 52%Z)).

(** *** Strings of decimal digits *)

Fixpoint decimal (s : string) : bool :=
  match s with
  | EmptyString => true
  | String c s' => regexp.isdigit c && decimal s'
  end.

(** The pattern as the spec words it: eleven decimal digits, the first
    [1], the second from [3] to [9], with [5] or [7] after [14] and
    anything but [4] after [15]. *)
Definition specMobile (s : string) : bool :=
  (String.length s =? 11)%nat && decimal s &&
  match s with
  | String c1 (String c2 (String c3 _)) =>
      Ascii.eqb c1 "1"
      && url.between "3" "9" c2
      && (if Ascii.eqb c2 "4" then Ascii.eqb c3 "5" || Ascii.eqb c3 "7" else true)
      && (if Ascii.eqb c2 "5" then negb (Ascii.eqb c3 "4") else true)
  | _ => false
  end.

(** ** Query strings *)

(** *** Escaping *)

(** The bytes that structure a query string. *)
Definition queryDelimiter (c : ascii) : Prop :=
  c = "&"%char \/ c = ";"%char \/ c = "="%char.

(** *** The pairs of a query *)

Definition queryPair (k v : string) : string :=
  url.QueryEscape k ++ "=" ++ url.QueryEscape v.

(** the pairs of [v], keys in sorted order *)
Definition sortedPairs (v : gmap string (list string)) : list (string * string) :=
  flat_map (fun k => map (pair k) (v !!! k)) (url.sortedKeys v).

Definition queryPairs (v : gmap string (list string)) : list string :=
  map (fun kv => queryPair (fst kv) (snd kv)) (sortedPairs v).

Definition joinStep (buf piece : string) : string :=
  (if strings.eqb buf "" then buf else buf ++ "&") ++ piece.

(** *** Maps of values *)

Definition addPair (m : gmap string (list string)) (kv : string * string)
  : gmap string (list string) :=
  url.add m (fst kv) (snd kv).

(** the values a [Values] map holds are never empty lists: [ParseQuery]
    and [Set] only make maps of this kind *)
Definition populated (v : gmap string (list string)) : Prop :=
  forall k vals, v !! k = Some vals -> vals <> [].

(** *** Merging parameters into a URL *)

(** the loop [for key, val := range params { q.Set(key, val) }] *)
Definition mergeParams (params : gmap string string) (q : gmap string (list string))
  : gmap string (list string) :=
  map_fold (fun key val q => url.Set_ q key val) q params.

(** the text of [u] with the query [rawQuery] *)
Definition urlWithQuery (u : url.URL) (rawQuery : string) : string :=
  url.stringBeforeQuery u ++ "?" ++ rawQuery ++ url.stringAfterQuery u.

Definition baseAPI_URL : url.URL :=
  {| url.Scheme := "https"; url.Opaque := ""; url.User := None;
     url.Host := "oapi.dingtalk.com"; url.Path := "/robot/send";
     url.RawPath := ""; url.OmitHost := false; url.ForceQuery := false;
     url.RawQuery := ""; url.Fragment := ""; url.RawFragment := "" |}.

(** [baseAPI] with a query of two pairs *)
Definition queriedURL : url.URL :=
  url.setRawQuery baseAPI_URL "already=here&access_token=old".

(** *** What [sendPayload] posts to *)

(** [sendPayload] returns after one POST to [u], leaving the client as it
    was and the request on record. *)
Definition postedTo (rt : Runtime) (payload : PayLoad) (s : State) (u : string) : Prop :=
  sendPayload rt payload s
  = (Returned (interpret rt (http_Post rt u "application/json"
                                       (json_Marshal rt payload))),
     {| hook := hook s; sent := (sent s ++ [requestOf rt u payload])%list |}).

(** *** The signing parameters, and clients for the examples *)

Definition signPair (rt : Runtime) (w : WebHook) : string :=
  "sign=" ++ url.QueryEscape (signNow rt (Secret w)).

Definition timestampPair (rt : Runtime) : string :=
  "timestamp=" ++ timestampNow rt.

Definition signedHook : WebHook :=
  {| AccessToken := "tok"; APIURL := baseAPI; Secret := "this is secret" |}.

Definition signingRuntime : Runtime :=
  exampleRuntime 1577808000000123456 (PostResponse 200 "ok").

Definition overrideHook : WebHook :=
  {| AccessToken := baseAPI ++ "?already=here"; APIURL := baseAPI;
     Secret := "this is secret" |}.

(** a client whose token is already its own re-encoding, with the
    signature of the millisecond [signingRuntime] is at *)
Definition presignedHook : WebHook :=
  {| AccessToken :=
       "https://oapi.dingtalk.com/robot/send?sign=ijHEivi6YiCNPZOq4hZstmvZ3sPfbioAiMhP30ae7W0%3D&timestamp=1577808000000";
     APIURL := baseAPI;
     Secret := "this is secret" |}.

(** ** Payloads, endpoints and the order of a map iteration *)

(** the button [SendActionCardMsg] makes of a title and a URL *)
Definition button (title actionURL : string) : Button :=
  {| Button_Title := title; Button_ActionURL := actionURL |}.

(** the payload [SendActionCardMsg] sends *)
Definition actionCardPayload (title content : string) (buttons : list Button)
           (hideAvatar btnOrientation : bool) : PayLoad :=
  {| MsgType := "actionCard";
     Text := zeroText; Link := zeroLink; Markdown := zeroMarkdown;
     PayLoad_ActionCard :=
       {| ActionCard_Text := content; ActionCard_Title := title;
          SingleTitle := ""; SingleURL := "";
          BtnOrientation := if btnOrientation then "1" else "0";
          HideAvatar := if hideAvatar then "1" else "0";
          Buttons := buttons |};
     FeedCard := zeroFeedCard; At := zeroAt |}.

(** [s'] is [s] after at most one more call of [http.Post], with the
    content type [application/json], and with the same client *)
Definition calledPostAtMostOnce (s s' : State) : Prop :=
  hook s' = hook s
  /\ (sent s' = sent s
      \/ exists r, sent s' = (sent s ++ [r])%list
                   /\ Request_ContentType r = "application/json").

(** the endpoint of a bare token at the default API URL *)
Definition defaultEndpoint (accessToken : string) : string :=
  baseAPI ++ "?access_token=" ++ url.QueryEscape accessToken.

(** [addParamsToURL] when [range params] yields the pairs in the order
    [order] (Go leaves the order of a map iteration open) *)
Definition addParamsToURL_ranging (order : list (string * string))
           (originURL : string) : option string :=
  match url.Parse originURL with
  | None => None
  | Some u =>
      let '(q, _) := url.ParseQuery (url.RawQuery u) in
      let q := fold_left (fun q kv => url.Set_ q (fst kv) (snd kv)) order q in
      Some (url.String_ (url.setRawQuery u (url.Encode q)))
  end.

(** the markdown payload with the text [text] *)
Definition markdownPayload (title text : string) (isAtAll : bool)
           (mobiles : list string) : PayLoad :=
  {| MsgType := "markdown";
     Text := zeroText; Link := zeroLink;
     Markdown := {| Markdown_Title := title; Markdown_Text := text |};
     PayLoad_ActionCard := zeroActionCard; FeedCard := zeroFeedCard;
     At := {| AtMobiles := mobiles; IsAtAll := isAtAll |} |}.

(* ===================================================================== *)
(** * Part IV: what the code does *)
(* ===================================================================== *)

(** ** Tactics *)

(** unfolds the monad of the methods *)
Ltac run_M :=
  unfold mbind, M_bind, bind, mret, M_ret, ret, receiver, panic, post, getSign;
  cbv beta iota delta [hook sent].

(** the 256 cases of a byte *)
Ltac each_byte c :=
  destruct c as [[] [] [] [] [] [] [] []].

(** ** Test vectors for the hash *)

Example sha256_abc :
  hex_of_bytes (sha256.Sum256 (bytes_of_string "abc"))
  = "ba7816bf8f01cfea414140de5dae2223b00361a396177a9cb410ff61f20015ad".
Proof. vm_compute. reflexivity. Qed.

Example sha256_empty :
  hex_of_bytes (sha256.Sum256 [])
  = "e3b0c44298fc1c149afbf4c8996fb92427ae41e4649b934ca495991b7852b855".
Proof. vm_compute. reflexivity. Qed.

(** ** Strings *)

Lemma append_nil_l (s : string) : "" ++ s = s.
Proof. reflexivity. Qed.

Lemma append_cons (c : ascii) (s t : string) : String c s ++ t = String c (s ++ t).
Proof. reflexivity. Qed.

Lemma append_nil_r (s : string) : s ++ "" = s.
Proof. induction s as [|c s IH]; [reflexivity|]. rewrite append_cons, IH. reflexivity. Qed.

Lemma append_assoc (s t u : string) : (s ++ t) ++ u = s ++ (t ++ u).
Proof.
  induction s as [|c s IH]; [reflexivity|].
  rewrite !append_cons, IH. reflexivity.
Qed.

Lemma strings_eqb_eq (a b : string) : strings.eqb a b = true <-> a = b.
Proof. unfold strings.eqb. apply String.eqb_eq. Qed.

Lemma strings_eqb_neq (a b : string) : strings.eqb a b = false <-> a <> b.
Proof. unfold strings.eqb. apply String.eqb_neq. Qed.

(** ** The send path, as one equation *)

Lemma getSign_run (rt : Runtime) (s : State) :
  getSign rt s = (Returned (timestampNow rt, signNow rt (Secret (hook s))), s).
Proof. reflexivity. Qed.

Lemma sendPayload_run (rt : Runtime) (payload : PayLoad) (s : State) :
  sendPayload rt payload s =
  match requestURL rt (hook s) with
  | None => (Panicked "invalid memory address or nil pointer dereference", s)
  | Some u =>
      (Returned (interpret rt (http_Post rt u "application/json" (json_Marshal rt payload))),
       {| hook := hook s; sent := (sent s ++ [requestOf rt u payload])%list |})
  end.
Proof.
  destruct s as [w log].
  unfold sendPayload, requestURL, requestParams, requestBase, interpret,
    requestOf, signNow, timestampNow.
  run_M.
  destruct (strings.Contains (AccessToken w) (APIURL w));
    destruct (strings.eqb (Secret w) ""); cbv beta iota delta [negb]; run_M;
    try rewrite insert_empty.
  all: match goal with
    | |- context [addParamsToURL ?p ?b] =>
        destruct (0 <? size p)%nat; [destruct (addParamsToURL p b)|]
    end; try reflexivity.
  all: match goal with
    | |- context [http_Post ?r ?u ?c ?b] => destruct (http_Post r u c b) as [e|code body]
    end; try reflexivity.
  all: rewrite (Z.eqb_sym 200 code); destruct (code =? 200)%Z; try reflexivity;
    cbv beta iota delta [negb];
    destruct (json_Unmarshal _ body zeroResponse) as [r [e|]]; try reflexivity;
    rewrite (Z.eqb_sym 0 (ErrorCode r)); destruct (ErrorCode r =? 0)%Z; reflexivity.
Qed.

(** ** The kinds of failure *)

Lemma error_kinds_distinct (cause cause' msg : string) (status code : Z) :
  TransportError cause <> HTTPStatusError status
  /\ TransportError cause <> MalformedResponseError cause'
  /\ TransportError cause <> RemoteAPIError code msg
  /\ HTTPStatusError status <> MalformedResponseError cause'
  /\ HTTPStatusError status <> RemoteAPIError code msg
  /\ MalformedResponseError cause' <> RemoteAPIError code msg
  /\ ValidationError_empty <> ValidationError_length_mismatch.
Proof.
  unfold TransportError, HTTPStatusError, MalformedResponseError, RemoteAPIError,
    ValidationError_empty, ValidationError_length_mismatch.
  repeat split; intros H;
    first [ apply (f_equal (fun e => String.get 0 (default "" e))) in H;
            cbv in H; discriminate H
          | apply (f_equal (fun e => String.get 4 (default "" e))) in H;
            cbv in H; discriminate H
          | apply (f_equal (fun e => String.get 6 (default "" e))) in H;
            cbv in H; discriminate H ].
Qed.

(** C1. For every payload, once the target URL is resolved [sendPayload]
    posts and reads the outcome in this order: a failed POST is a
    [TransportError] with its cause; otherwise a status other than 200 is an
    [HTTPStatusError] with that status, whatever the JSON decoder would say
    of the body; otherwise a body that does not decode is a
    [MalformedResponseError]; otherwise a non-zero [errcode] is a
    [RemoteAPIError] with code and message; and [nil] is returned exactly
    when the status is 200, the body decodes and [errcode] is zero. *)
Theorem sendPayload_outcome_order
        (rt : Runtime) (payload : PayLoad) (s : State) (u : string) :
  requestURL rt (hook s) = Some u ->
  let resp := http_Post rt u "application/json" (json_Marshal rt payload) in
  let result := fst (sendPayload rt payload s) in
  (forall cause, resp = PostError cause ->
     result = Returned (TransportError cause))
  /\ (forall code body, resp = PostResponse code body -> code <> 200%Z ->
      forall decode,
        fst (sendPayload (withUnmarshal rt decode) payload s)
        = Returned (HTTPStatusError code))
  /\ (forall body r cause, resp = PostResponse 200 body ->
      json_Unmarshal rt body zeroResponse = (r, Some cause) ->
      result = Returned (MalformedResponseError cause))
  /\ (forall body r, resp = PostResponse 200 body ->
      json_Unmarshal rt body zeroResponse = (r, None) ->
      ErrorCode r <> 0%Z ->
      result = Returned (RemoteAPIError (ErrorCode r) (ErrorMessage r)))
  /\ (result = Returned None <->
      exists body r, resp = PostResponse 200 body
                     /\ json_Unmarshal rt body zeroResponse = (r, None)
                     /\ ErrorCode r = 0%Z).
Proof.
  intros Hurl resp result.
  assert (Hres : result = Returned (interpret rt resp)).
  { subst result resp. rewrite sendPayload_run, Hurl. reflexivity. }
  repeat split.
  - intros cause Hresp. rewrite Hres, Hresp. reflexivity.
  - intros code body Hresp Hcode decode.
    rewrite sendPayload_run.
    change (requestURL (withUnmarshal rt decode) (hook s)) with (requestURL rt (hook s)).
    rewrite Hurl. cbn [fst].
    change (http_Post (withUnmarshal rt decode) u "application/json"
              (json_Marshal (withUnmarshal rt decode) payload)) with resp.
    rewrite Hresp. unfold interpret.
    apply Z.eqb_neq in Hcode. rewrite Hcode. reflexivity.
  - intros body r cause Hresp Hdec. rewrite Hres, Hresp. unfold interpret.
    rewrite Z.eqb_refl, Hdec. reflexivity.
  - intros body r Hresp Hdec Hcode. rewrite Hres, Hresp. unfold interpret.
    rewrite Z.eqb_refl, Hdec. apply Z.eqb_neq in Hcode. rewrite Hcode. reflexivity.
  - rewrite Hres. unfold interpret. intros H.
    destruct resp as [cause|code body]; [discriminate H|].
    destruct (code =? 200)%Z eqn:Hcode; [|discriminate H].
    apply Z.eqb_eq in Hcode. subst code.
    destruct (json_Unmarshal rt body zeroResponse) as [r [cause|]] eqn:Hdec;
      [discriminate H|].
    destruct (ErrorCode r =? 0)%Z eqn:Hzero; [|discriminate H].
    exists body, r. apply Z.eqb_eq in Hzero. auto.
  - intros (body & r & Hresp & Hdec & Hzero). rewrite Hres, Hresp. unfold interpret.
    rewrite Z.eqb_refl, Hdec, Hzero. reflexivity.
Qed.

Lemma sendPayload_outcome_order_witness :
  requestURL (exampleRuntime 0 (PostResponse 200 "ok")) (NewWebHook "tok")
  = Some "https://oapi.dingtalk.com/robot/send?access_token=tok"
  /\ fst (sendPayload (exampleRuntime 0 (PostResponse 200 "ok")) emptyPayLoad
            (fresh (NewWebHook "tok")))
     = Returned None.
Proof.
  assert (H : requestURL (exampleRuntime 0 (PostResponse 200 "ok"))
                (hook (fresh (NewWebHook "tok")))
              = Some "https://oapi.dingtalk.com/robot/send?access_token=tok")
    by (vm_compute; reflexivity).
  split; [exact H|].
  apply (sendPayload_outcome_order _ emptyPayLoad _ _ H).
  exists "ok", zeroResponse. repeat split.
Defined.

(** ** Validation in [SendActionCardMsg] *)

(** The two guards of [SendActionCardMsg] return before anything is sent:
    the state is the one the call started in. *)
Lemma SendActionCardMsg_guards
      (rt : Runtime) (title content : string) (linkTitles linkUrls : list string)
      (hideAvatar btnOrientation : bool) (s : State) :
  (linkTitles = [] \/ linkUrls = [] ->
   SendActionCardMsg rt title content linkTitles linkUrls hideAvatar btnOrientation s
   = (Returned ValidationError_empty, s))
  /\ (linkTitles <> [] -> linkUrls <> [] -> length linkUrls <> length linkTitles ->
      SendActionCardMsg rt title content linkTitles linkUrls hideAvatar btnOrientation s
      = (Returned ValidationError_length_mismatch, s)).
Proof.
  unfold SendActionCardMsg. split.
  - intros [-> | ->]; [reflexivity|].
    destruct linkTitles; reflexivity.
  - intros Ht Hu Hlen.
    destruct linkTitles as [|t ts]; [congruence|].
    destruct linkUrls as [|l ls]; [congruence|].
    apply Nat.eqb_neq in Hlen.
    change ((0 =? length (t :: ts))%nat || (0 =? length (l :: ls))%nat) with false.
    cbv beta iota. rewrite Hlen. reflexivity.
Qed.

(** C3, as the code has it.  With no titles and no URLs
    [SendActionCardMsg] fails with the [empty] validation error, and so it
    does with one title and no URL: the first guard fires when either list
    is empty.  The [length mismatch] error is what two non-empty lists of
    different lengths get.  In each case nothing is sent. *)
Theorem SendActionCardMsg_validation
        (rt : Runtime) (title content t : string)
        (hideAvatar btnOrientation : bool) (s : State) :
  SendActionCardMsg rt title content [] [] hideAvatar btnOrientation s
  = (Returned ValidationError_empty, s)
  /\ SendActionCardMsg rt title content [t] [] hideAvatar btnOrientation s
     = (Returned ValidationError_empty, s)
  /\ (forall linkTitles linkUrls,
        linkTitles <> [] -> linkUrls <> [] ->
        length linkUrls <> length linkTitles ->
        SendActionCardMsg rt title content linkTitles linkUrls
                          hideAvatar btnOrientation s
        = (Returned ValidationError_length_mismatch, s)).
Proof.
  split; [|split].
  - apply SendActionCardMsg_guards. left. reflexivity.
  - apply SendActionCardMsg_guards. right. reflexivity.
  - intros linkTitles linkUrls. apply SendActionCardMsg_guards.
Qed.

(** One title and no URL: the error is the [empty] one, not the
    [length mismatch] one. *)
Lemma SendActionCardMsg_one_title_no_url :
  fst (SendActionCardMsg (exampleRuntime 0 (PostResponse 200 "ok"))
         "A action card message" "This is a action card message"
         ["Title 1"] [] true true (fresh (NewWebHook "example-access-token")))
  <> Returned ValidationError_length_mismatch.
Proof.
  rewrite (proj1 (SendActionCardMsg_guards _ _ _ ["Title 1"] [] _ _ _))
    by (right; reflexivity).
  cbn [fst]. intros H.
  assert (Hkind : ValidationError_empty = ValidationError_length_mismatch)
    by congruence.
  revert Hkind. apply (error_kinds_distinct "" "" "" 0 0).
Qed.

(** ** The client's configuration is read, never written *)

Lemma sendPayload_hook (rt : Runtime) (payload : PayLoad) (s : State) :
  hook (snd (sendPayload rt payload s)) = hook s.
Proof.
  rewrite sendPayload_run. destruct (requestURL rt (hook s)); reflexivity.
Qed.

(** [resetAPIURL], for contrast, does write to the client. *)
Lemma resetAPIURL_hook (s : State) :
  hook (snd (resetAPIURL s))
  = {| AccessToken := AccessToken (hook s); APIURL := baseAPI;
       Secret := Secret (hook s) |}.
Proof. reflexivity. Qed.

(** C10. [sendPayload] and the five message builders leave the fields
    [AccessToken], [APIURL] and [Secret] of the client as they were, whether
    the call returns [nil], returns an error or panics. *)
Theorem send_operations_preserve_client (rt : Runtime) (s : State) :
  (forall payload, hook (snd (sendPayload rt payload s)) = hook s)
  /\ (forall content isAtAll mobiles,
        hook (snd (SendTextMsg rt content isAtAll mobiles s)) = hook s)
  /\ (forall title content picURL msgURL,
        hook (snd (SendLinkMsg rt title content picURL msgURL s)) = hook s)
  /\ (forall title content isAtAll mobiles,
        hook (snd (SendMarkdownMsg rt title content isAtAll mobiles s)) = hook s)
  /\ (forall title content linkTitles linkUrls hideAvatar btnOrientation,
        hook (snd (SendActionCardMsg rt title content linkTitles linkUrls
                                     hideAvatar btnOrientation s)) = hook s)
  /\ (forall messages, hook (snd (SendLinkCardMsg rt messages s)) = hook s).
Proof.
  repeat split; intros.
  - apply sendPayload_hook.
  - unfold SendTextMsg. apply sendPayload_hook.
  - unfold SendLinkMsg. apply sendPayload_hook.
  - unfold SendMarkdownMsg.
    destruct (fold_left mention mobiles (content, false)) as [text firstLine].
    apply sendPayload_hook.
  - unfold SendActionCardMsg.
    destruct ((0 =? length linkTitles)%nat || (0 =? length linkUrls)%nat);
      [reflexivity|].
    destruct (negb (length linkUrls =? length linkTitles)%nat); [reflexivity|].
    destruct (inject linkTitles linkUrls 0 (length linkTitles) []);
      [apply sendPayload_hook | reflexivity].
  - unfold SendLinkCardMsg. apply sendPayload_hook.
Qed.

(** ** Signing *)

Lemma block_of_key_pad (k : bytes) :
  (length k <= sha256.BlockSize)%nat ->
  hmac.block_of_key k = (k ++ repeat 0%Z (sha256.BlockSize - length k))%list.
Proof.
  intros Hlen. unfold hmac.block_of_key.
  replace (repeat 0%Z sha256.BlockSize)
    with (repeat 0%Z (sha256.BlockSize - length k)
          ++ repeat 0%Z (length k))%list.
  - rewrite List.app_assoc, firstn_app.
    rewrite firstn_all2 by (rewrite length_app, repeat_length; lia).
    rewrite length_app, repeat_length.
    replace (sha256.BlockSize - (length k + (sha256.BlockSize - length k)))%nat
      with 0%nat by lia.
    rewrite firstn_O, app_nil_r. reflexivity.
  - rewrite <- repeat_app. f_equal. lia.
Qed.

Lemma Sum256_length (msg : bytes) : length (sha256.Sum256 msg) = sha256.Size.
Proof.
  unfold sha256.Sum256.
  generalize (sha256.pad msg). intros p.
  generalize (length p / sha256.BlockSize)%nat. intros n.
  assert (Hblocks : forall n h p, length h = 8%nat -> length (sha256.blocks n h p) = 8%nat).
  { clear. induction n as [|n IH]; intros h p Hh; [exact Hh|].
    cbn [sha256.blocks]. destruct (length p <? sha256.BlockSize)%nat; [exact Hh|].
    apply IH. unfold sha256.block.
    destruct (fold_left sha256.round _ _). destruct (sha256.regs_of h). reflexivity. }
  specialize (Hblocks n sha256.init p eq_refl).
  destruct (sha256.blocks n sha256.init p) as [|h0 [|h1 [|h2 [|h3 [|h4 [|h5 [|h6 [|h7 [|]]]]]]]]];
    try discriminate Hblocks.
  reflexivity.
Qed.

(** [hmac.New], [Write] and [Sum] compute the HMAC of what was written. *)
Lemma hmac_Sum_Write_New (key text : bytes) :
  hmac.Sum (hmac.Write (hmac.New key) text) [] = HMAC_SHA256 key text.
Proof.
  unfold hmac.Sum, hmac.Write, hmac.New, HMAC_SHA256.
  cbn [hmac.ipad hmac.opad hmac.inner app].
  set (k := if (sha256.BlockSize <? length key)%nat then sha256.Sum256 key else key).
  assert (Hk : (length k <= sha256.BlockSize)%nat).
  { subst k. destruct (sha256.BlockSize <? length key)%nat eqn:Hlong.
    - rewrite Sum256_length. unfold sha256.Size, sha256.BlockSize. lia.
    - apply Nat.ltb_ge in Hlong. exact Hlong. }
  rewrite (block_of_key_pad k Hk). reflexivity.
Qed.

(** C2. For every secret and every reading of the clock, the signature
    [getSign] returns is the standard base64 encoding of the HMAC-SHA256,
    keyed by the secret, of the timestamp, a newline and the secret, the
    timestamp being the clock's milliseconds in decimal; and this is the
    value [sendPayload] sends as [sign] whenever a secret is configured.
    For the secret [this is secret] at 1577808000000 ms it is the value
    that OpenSSL computes for the same key and message. *)
Theorem getSign_is_base64_hmac_sha256 (rt : Runtime) (s : State) :
  let secret := Secret (hook s) in
  let timestamp := strconv.FormatInt (Z.quot (UnixNano rt) 1000000) in
  let signature :=
    base64.EncodeToString
      (HMAC_SHA256 (bytes_of_string secret)
                   (bytes_of_string (timestamp ++ newline ++ secret))) in
  getSign rt s = (Returned (timestamp, signature), s)
  /\ (secret <> "" -> requestParams rt (hook s) !! "sign" = Some signature)
  /\ fst (getSign (exampleRuntime 1577808000000123456 (PostError ""))
                  (fresh {| AccessToken := ""; APIURL := baseAPI;
                            Secret := "this is secret" |}))
     = Returned ("1577808000000", "ijHEivi6YiCNPZOq4hZstmvZ3sPfbioAiMhP30ae7W0=").
Proof.
  intros secret timestamp signature.
  assert (Hsign : signNow rt secret = signature).
  { unfold signNow, signature. rewrite hmac_Sum_Write_New. reflexivity. }
  split; [|split].
  - rewrite getSign_run. fold secret. rewrite Hsign. reflexivity.
  - intros Hsecret. unfold requestParams. fold secret.
    apply strings_eqb_neq in Hsecret. rewrite Hsecret.
    rewrite lookup_insert_eq. rewrite Hsign. reflexivity.
  - vm_compute. reflexivity.
Qed.

(** Test vectors: RFC 4231 (cases 2 and 6) for HMAC-SHA256 and RFC 4648
    for base64. *)
Example hmac_rfc4231_case2 :
  hex_of_bytes (HMAC_SHA256 (bytes_of_string "Jefe")
                            (bytes_of_string "what do ya want for nothing?"))
  = "5bdcc146bf60754e6a042426089575c75a003f089d2739839dec58b964ec3843".
Proof. vm_compute. reflexivity. Qed.

Example hmac_rfc4231_case6 :
  hex_of_bytes
    (HMAC_SHA256 (repeat 0xaa%Z 131)
       (bytes_of_string "Test Using Larger Than Block-Size Key - Hash Key First"))
  = "60e431591ee0b67f0d8a26aacbf5b77f8e0bc6213728c5140546040f0ee37f54".
Proof. vm_compute. reflexivity. Qed.

Example base64_rfc4648 :
  map (fun s => base64.EncodeToString (bytes_of_string s))
      ["f"; "fo"; "foo"; "foob"; "fooba"; "foobar"]
  = ["Zg=="; "Zm8="; "Zm9v"; "Zm9vYg=="; "Zm9vYmE="; "Zm9vYmFy"].
Proof. vm_compute. reflexivity. Qed.

(** ** Mentions in [SendMarkdownMsg] *)

Lemma fold_mention (mobiles : list string) (content : string) (firstLine : bool) :
  fold_left mention mobiles (content, firstLine)
  = (content ++ (if firstLine
                 then concatAll (map atMention (List.filter matchesMobile mobiles))
                 else mentions mobiles),
     firstLine || existsb matchesMobile mobiles).
Proof.
  revert content firstLine.
  induction mobiles as [|mobile mobiles IH]; intros content firstLine.
  - cbn [fold_left List.filter map concatAll existsb]. unfold mentions.
    cbn [List.filter]. rewrite orb_false_r.
    destruct firstLine; rewrite append_nil_r; reflexivity.
  - cbn [fold_left]. unfold mention at 2. fold (matchesMobile mobile).
    unfold mentions. cbn [List.filter existsb].
    destruct (matchesMobile mobile) eqn:Hm.
    + rewrite IH. cbn [map concatAll orb]. unfold atMention at 2 4.
      rewrite orb_true_r.
      destruct firstLine; cbn [negb]; rewrite ?append_assoc; reflexivity.
    + rewrite IH. unfold mentions. cbn [orb]. reflexivity.
Qed.

(** C7. [SendMarkdownMsg] sends the markdown payload whose text is the
    content followed by a mention [ @<mobile>] for each mobile number that
    matches the pattern, in order, after a single [#####] marker; the
    at-block lists every mobile number given, matching or not.  For
    [SendMarkdownMsg("T", "body", false, "13800138000")] the text is
    [body##### @13800138000]. *)
Theorem SendMarkdownMsg_mentions
        (rt : Runtime) (title content : string) (isAtAll : bool)
        (mobiles : list string) :
  SendMarkdownMsg rt title content isAtAll mobiles
  = sendPayload rt {|
      MsgType := "markdown";
      Text := zeroText; Link := zeroLink;
      Markdown := {| Markdown_Title := title;
                     Markdown_Text := content ++ mentions mobiles |};
      PayLoad_ActionCard := zeroActionCard; FeedCard := zeroFeedCard;
      At := {| AtMobiles := mobiles; IsAtAll := isAtAll |} |}
  /\ mentions mobiles
     = (if existsb matchesMobile mobiles then "#####" else "")
       ++ concatAll (map atMention (List.filter matchesMobile mobiles))
  /\ "body" ++ mentions ["13800138000"] = "body##### @13800138000".
Proof.
  split; [|split].
  - unfold SendMarkdownMsg. rewrite fold_mention. reflexivity.
  - unfold mentions.
    induction mobiles as [|mobile mobiles IH]; [reflexivity|].
    cbn [List.filter existsb]. destruct (matchesMobile mobile); [reflexivity|].
    cbn [orb]. exact IH.
  - vm_compute. reflexivity.
Qed.

(** ** The mobile-number pattern *)

(** *** The matcher against the language of a regular expression *)

Lemma isNil_app {A} (l1 l2 : list A) : isNil (l1 ++ l2)%list = isNil l1 && isNil l2.
Proof. destruct l1; reflexivity. Qed.

(** The backtracking matcher is sound and complete for [denote]. *)
Lemma matches_denote (re : regexp.Regexp) :
  forall (k : bool -> list Z -> bool) (bot : bool) (input : list Z),
    regexp.matches re k bot input = true <->
    exists w rest, input = (w ++ rest)%list
                   /\ denote re bot (isNil rest) w
                   /\ k (bot && isNil w) rest = true.
Proof.
  induction re as [ | | | r | negated ranges | sub IH | n sub IH
                  | a IHa b IHb | a IHa b IHb ]; intros k bot input.
  - cbn [regexp.matches denote]. split.
    + intros H. exists [], input. rewrite andb_true_r. auto.
    + intros (w & rest & -> & -> & H). rewrite andb_true_r in H. exact H.
  - cbn [regexp.matches denote]. split.
    + destruct bot; [|discriminate]. intros H. exists [], input. auto.
    + intros (w & rest & -> & [-> ->] & H). exact H.
  - cbn [regexp.matches denote]. split.
    + destruct input; [|discriminate]. intros H. exists [], [].
      rewrite andb_true_r. auto.
    + intros (w & rest & -> & [-> Hrest] & H).
      destruct rest; [|discriminate Hrest]. rewrite andb_true_r in H. exact H.
  - cbn [regexp.matches denote]. split.
    + destruct input as [|c rest]; [discriminate|].
      intros [Hc H]%andb_true_iff. apply Z.eqb_eq in Hc. subst c.
      exists [r], rest. rewrite andb_false_r. auto.
    + intros (w & rest & -> & -> & H). rewrite andb_false_r in H.
      cbn [app]. rewrite Z.eqb_refl. exact H.
  - cbn [regexp.matches denote]. split.
    + destruct input as [|c rest]; [discriminate|].
      intros [Hc H]%andb_true_iff.
      exists [c], rest. rewrite andb_false_r. eauto.
    + intros (w & rest & -> & (c & -> & Hc) & H). rewrite andb_false_r in H.
      cbn [app]. rewrite Hc. exact H.
  - cbn [regexp.matches denote]. apply IH.
  - cbn [regexp.matches denote].
    revert k bot input. induction n as [|n IHn]; intros k bot input.
    + split.
      * intros H. exists [], input. rewrite andb_true_r. auto.
      * intros (w & rest & -> & -> & H). rewrite andb_true_r in H. exact H.
    + rewrite IH. split.
      * intros (w1 & rest1 & -> & Hsub & Hrep).
        apply IHn in Hrep as (w2 & rest & -> & Hrep & H).
        exists (w1 ++ w2)%list, rest. rewrite <- List.app_assoc. split; [reflexivity|].
        rewrite isNil_app in Hsub. rewrite isNil_app, andb_assoc.
        split; [|exact H].
        exists w1, w2. rewrite (andb_comm (isNil rest)). auto.
      * intros (w & rest & -> & (w1 & w2 & -> & Hsub & Hrep) & H).
        exists w1, (w2 ++ rest)%list. rewrite <- List.app_assoc. split; [reflexivity|].
        rewrite isNil_app, (andb_comm (isNil w2)). split; [exact Hsub|].
        apply IHn. exists w2, rest. rewrite isNil_app, andb_assoc in H. auto.
  - cbn [regexp.matches denote]. rewrite IHa. split.
    + intros (w1 & rest1 & -> & Ha & Hb).
      apply IHb in Hb as (w2 & rest & -> & Hb & H).
      exists (w1 ++ w2)%list, rest. rewrite <- List.app_assoc. split; [reflexivity|].
      rewrite isNil_app in Ha. rewrite isNil_app, andb_assoc.
      split; [|exact H].
      exists w1, w2. rewrite (andb_comm (isNil rest)). auto.
    + intros (w & rest & -> & (w1 & w2 & -> & Ha & Hb) & H).
      exists w1, (w2 ++ rest)%list. rewrite <- List.app_assoc. split; [reflexivity|].
      rewrite isNil_app, (andb_comm (isNil w2)). split; [exact Ha|].
      apply IHb. exists w2, rest. rewrite isNil_app, andb_assoc in H. auto.
  - cbn [regexp.matches denote]. rewrite orb_true_iff, IHa, IHb. split.
    + intros [(w & rest & ? & ? & ?) | (w & rest & ? & ? & ?)];
        exists w, rest; auto.
    + intros (w & rest & ? & [?|?] & ?); [left|right]; exists w, rest; auto.
Qed.

(** A search finds a match exactly when some suffix of the input starts
    with a word of the language. *)
Lemma search_denote (re : regexp.Regexp) (input : list Z) (bot : bool) :
  regexp.search re bot input = true <->
  exists skipped w rest,
    input = (skipped ++ w ++ rest)%list
    /\ denote re (bot && isNil skipped) (isNil rest) w.
Proof.
  revert bot. induction input as [|c input IH]; intros bot.
  - cbn [regexp.search]. rewrite orb_false_r, matches_denote. split.
    + intros (w & rest & E & Hw & _). exists [], w, rest.
      rewrite andb_true_r. auto.
    + intros (skipped & w & rest & E & Hw).
      destruct skipped; [|discriminate E]. rewrite andb_true_r in Hw.
      exists w, rest. auto.
  - cbn [regexp.search]. rewrite orb_true_iff, matches_denote, IH. split.
    + intros [(w & rest & E & Hw & _) | (skipped & w & rest & E & Hw)].
      * exists [], w, rest. rewrite andb_true_r. auto.
      * exists (c :: skipped), w, rest. rewrite E, andb_false_r. auto.
    + intros (skipped & w & rest & E & Hw). destruct skipped as [|c' skipped].
      * left. rewrite andb_true_r in Hw. exists w, rest. auto.
      * right. injection E as -> E. rewrite andb_false_r in Hw.
        exists skipped, w, rest. auto.
Qed.

(** *** The language of [regPattern] *)

(** [regStr] compiles; this is its syntax tree. *)
Lemma regPattern_compiles :
  regexp.Compile regStr
  = Some (regexp.OpConcat
            (regexp.OpConcat
               (regexp.OpConcat
                  (regexp.OpConcat regexp.OpBeginText (regexp.OpLiteral 49))
                  (regexp.OpCapture
                     (regexp.OpAlternate
                        (regexp.OpConcat
                           (regexp.OpCharClass false [(51, 51); (56, 56)]%Z)
                           (regexp.OpCharClass false [(48, 57)]%Z))
                        (regexp.OpAlternate
                           (regexp.OpConcat
                              (regexp.OpConcat (regexp.OpLiteral 49) (regexp.OpLiteral 52))
                              (regexp.OpCharClass false [(53, 53); (55, 55)]%Z))
                           (regexp.OpConcat
                              (regexp.OpLiteral 53)
                              (regexp.OpCharClass true [(52, 52)]%Z))))))
               (regexp.OpRepeat 8 (regexp.OpCharClass false [(48, 57)]%Z)))
            regexp.OpEndText).
Proof. vm_compute. reflexivity. Qed.

Lemma class_digit (c : Z) :
  regexp.class_matches false [(48, 57)%Z] c = true <-> digitRune c.
Proof.
  unfold regexp.class_matches, regexp.in_ranges, digitRune. cbn [existsb].
  rewrite orb_false_r, andb_true_iff, !Z.leb_le. reflexivity.
Qed.

Lemma class_two (x y c : Z) :
  regexp.class_matches false [(x, x); (y, y)] c = true <-> c = x \/ c = y.
Proof.
  unfold regexp.class_matches, regexp.in_ranges. cbn [existsb].
  rewrite orb_false_r, orb_true_iff, !andb_true_iff, !Z.leb_le. lia.
Qed.

Lemma class_not (x c : Z) :
  regexp.class_matches true [(x, x)] c = true <-> c <> x.
Proof.
  unfold regexp.class_matches, regexp.in_ranges. cbn [existsb].
  rewrite orb_false_r, negb_true_iff, andb_false_iff, !Z.leb_gt. lia.
Qed.

Lemma denote_repeat_class (n : nat) (negated : bool) (ranges : list (Z * Z))
      (bot eot : bool) (w : list Z) :
  denote (regexp.OpRepeat n (regexp.OpCharClass negated ranges)) bot eot w <->
  length w = n /\ Forall (fun c => regexp.class_matches negated ranges c = true) w.
Proof.
  cbn [denote]. revert bot w. induction n as [|n IH]; intros bot w.
  - split.
    + intros ->. split; [reflexivity | constructor].
    + intros [Hlen _]. destruct w; [reflexivity | discriminate Hlen].
  - split.
    + intros (w1 & w2 & -> & (c & -> & Hc) & Hrep).
      apply IH in Hrep as [Hlen Hall]. cbn [app length]. split; [lia|].
      constructor; assumption.
    + intros [Hlen Hall]. destruct w as [|c w]; [discriminate Hlen|].
      inversion Hall as [|? ? Hc Hall']; subst.
      exists [c], w. split; [reflexivity|]. split; [eauto|].
      apply IH. split; [|exact Hall']. cbn [length] in Hlen. lia.
Qed.

Lemma regPattern_language (bot eot : bool) (w : list Z) :
  denote regPattern bot eot w <-> bot = true /\ eot = true /\ mobileLanguage w.
Proof.
  unfold regPattern. rewrite regPattern_compiles. cbn [default from_option id].
  remember (regexp.OpRepeat 8 (regexp.OpCharClass false [(48, 57)%Z])) as D eqn:HD.
  cbn [denote]. split.
  - intros (w1 & wend & -> & (w2 & digits & -> & (w3 & head & -> & (w4 & one & -> & [-> Hbot] & ->) & Hhead) & Hdigits) & [-> Heot]).
    subst D. apply denote_repeat_class in Hdigits as [Hlen Hall].
    split; [exact Hbot|]. split; [exact Heot|].
    exists head, digits. rewrite app_nil_r. cbn [app].
    split; [reflexivity|]. split; [exact Hlen|]. split.
    { eapply Forall_impl; [exact Hall|]. intros c. apply class_digit. }
    destruct Hhead as [(h1 & h2 & -> & (a & -> & Ha) & (b & -> & Hb))
                      |[(h1 & h2 & -> & (h3 & h4 & -> & -> & ->) & (c & -> & Hc))
                       |(h1 & h2 & -> & -> & (c & -> & Hc))]].
    + left. exists a, b. apply class_two in Ha. apply class_digit in Hb. auto.
    + right. left. exists c. apply class_two in Hc. auto.
    + right. right. exists c. apply class_not in Hc. auto.
  - intros (-> & -> & head & digits & -> & Hlen & Hall & Hhead).
    exists (49%Z :: head ++ digits)%list, []. rewrite app_nil_r.
    split; [reflexivity|]. split; [|auto].
    exists (49%Z :: head), digits. split; [reflexivity|]. split.
    + exists [49%Z], head. split; [reflexivity|]. split.
      { exists [], [49%Z]. auto. }
      destruct Hhead as [(a & b & -> & Ha & Hb) | [(c & -> & Hc) | (c & -> & Hc)]].
      * left. exists [a], [b]. split; [reflexivity|].
        split; [exists a | exists b]; split; try reflexivity.
        -- apply class_two. exact Ha.
        -- apply class_digit. exact Hb.
      * right. left. exists [49; 52]%Z, [c]. split; [reflexivity|]. split.
        -- exists [49%Z], [52%Z]. auto.
        -- exists c. split; [reflexivity|]. apply class_two. exact Hc.
      * right. right. exists [53%Z], [c]. split; [reflexivity|]. split; [reflexivity|].
        exists c. split; [reflexivity|]. apply class_not. exact Hc.
    + subst D. apply denote_repeat_class. split; [exact Hlen|].
      eapply Forall_impl; [exact Hall|]. intros c. apply class_digit.
Qed.

(** [regPattern.MatchString(s)] holds exactly when the runes of [s] are a
    word of [mobileLanguage]: the anchors leave no room before or after. *)
Lemma MatchString_regPattern (s : string) :
  regexp.MatchString regPattern s = true <-> mobileLanguage (utf8.runes s).
Proof.
  unfold regexp.MatchString. rewrite search_denote. split.
  - intros (skipped & w & rest & E & Hw).
    apply regPattern_language in Hw as (Hbot & Heot & Hw).
    destruct skipped; [|discriminate Hbot]. destruct rest; [|discriminate Heot].
    rewrite E, app_nil_r. exact Hw.
  - intros Hw. exists [], (utf8.runes s), []. rewrite app_nil_r.
    split; [reflexivity|]. apply regPattern_language. auto.
Qed.

(** *** Strings of decimal digits *)

Lemma byte_of_ascii_inj (c d : ascii) : byte_of_ascii c = byte_of_ascii d -> c = d.
Proof.
  unfold byte_of_ascii. intros H. apply N2Z.inj in H.
  rewrite <- (ascii_N_embedding c), <- (ascii_N_embedding d), H. reflexivity.
Qed.

Lemma isdigit_byte (c : ascii) :
  regexp.isdigit c = true <-> digitRune (byte_of_ascii c).
Proof.
  unfold regexp.isdigit, digitRune, byte_of_ascii.
  rewrite andb_true_iff, !N.leb_le. lia.
Qed.

Lemma DecodeRune_ascii (c : ascii) (s : string) :
  (N_of_ascii c < 128)%N ->
  utf8.DecodeRuneInString (String c s) = (byte_of_ascii c, 1%nat).
Proof.
  intros Hc. unfold utf8.DecodeRuneInString.
  cbn [list_ascii_of_string map]. unfold utf8.first.
  assert (Hb : (byte_of_ascii c < 128)%Z) by (unfold byte_of_ascii; lia).
  destruct (Z.ltb_spec (byte_of_ascii c) 194); [|lia].
  destruct (Z.ltb_spec (byte_of_ascii c) 128); [reflexivity | lia].
Qed.

(** The runes of a string of decimal digits are its bytes. *)
Lemma runes_decimal (s : string) :
  decimal s = true -> utf8.runes s = bytes_of_string s.
Proof.
  unfold utf8.runes, bytes_of_string.
  induction s as [|c s IH]; [reflexivity|].
  cbn [decimal]. intros [Hc Hs]%andb_true_iff.
  cbn [utf8.runes_from]. rewrite DecodeRune_ascii.
  - cbn [Nat.sub list_ascii_of_string map]. rewrite (IH Hs). reflexivity.
  - unfold regexp.isdigit in Hc. apply andb_true_iff in Hc as [_ Hc].
    apply N.leb_le in Hc. lia.
Qed.

Lemma decimal_digits (s : string) :
  decimal s = true -> Forall digitRune (bytes_of_string s).
Proof.
  unfold bytes_of_string. induction s as [|c s IH]; [constructor|].
  cbn [decimal]. intros [Hc Hs]%andb_true_iff.
  cbn [list_ascii_of_string map]. constructor; [|exact (IH Hs)].
  apply isdigit_byte. exact Hc.
Qed.

Lemma bytes_of_string_length (s : string) :
  length (bytes_of_string s) = String.length s.
Proof.
  unfold bytes_of_string. induction s as [|c s IH]; [reflexivity|].
  cbn [list_ascii_of_string map length String.length]. rewrite IH. reflexivity.
Qed.





(** Where else the pattern and the spec's words part: [14[57]] stands
    after the leading [1], so it asks for [1145] or [1147] and twelve
    characters, and [[^4]] takes any rune, digit or not. *)
Lemma mobile_pattern_other_differences :
  specMobile "14512345678" = true /\ matchesMobile "14512345678" = false
  /\ specMobile "114512345678" = false /\ matchesMobile "114512345678" = true
  /\ specMobile "15a12345678" = false /\ matchesMobile "15a12345678" = true.
Proof. repeat split; vm_compute; reflexivity. Qed.

(** ** Query strings *)

(** *** Escaping *)

Lemma QueryUnescape_escape_cons (c : ascii) (s : string) :
  url.unescape (url.escape (String c s) url.encodeQueryComponent)
               url.encodeQueryComponent
  = String c <$> url.unescape (url.escape s url.encodeQueryComponent)
                              url.encodeQueryComponent.
Proof. each_byte c; reflexivity. Qed.

(** [QueryUnescape] undoes [QueryEscape]. *)
Lemma QueryUnescape_QueryEscape (s : string) :
  url.QueryUnescape (url.QueryEscape s) = Some s.
Proof.
  unfold url.QueryUnescape, url.QueryEscape.
  induction s as [|c s IH]; [reflexivity|].
  rewrite QueryUnescape_escape_cons, IH. reflexivity.
Qed.

Lemma ContainsByte_escape_cons (c x : ascii) (s : string) :
  queryDelimiter x ->
  strings.ContainsByte (url.escape (String c s) url.encodeQueryComponent) x
  = strings.ContainsByte (url.escape s url.encodeQueryComponent) x.
Proof. intros [-> | [-> | ->]]; each_byte c; reflexivity. Qed.

(** An escaped key or value holds none of them. *)
Lemma QueryEscape_no_delimiter (s : string) (x : ascii) :
  queryDelimiter x -> strings.ContainsByte (url.QueryEscape s) x = false.
Proof.
  intros Hx. unfold url.QueryEscape.
  induction s as [|c s IH]; [reflexivity|].
  rewrite ContainsByte_escape_cons by exact Hx. exact IH.
Qed.

(** *** Cutting and splitting *)

Lemma ContainsByte_app (a b : string) (c : ascii) :
  strings.ContainsByte (a ++ b) c
  = strings.ContainsByte a c || strings.ContainsByte b c.
Proof.
  induction a as [|x a IH]; [reflexivity|].
  rewrite append_cons. cbn [strings.ContainsByte]. rewrite IH, orb_assoc. reflexivity.
Qed.

Lemma CutByte_app (a b : string) (sep : ascii) :
  strings.ContainsByte a sep = false ->
  strings.CutByte (a ++ String sep b) sep = (a, b, true).
Proof.
  induction a as [|x a IH]; intros Ha.
  - rewrite append_nil_l. cbn [strings.CutByte]. rewrite Ascii.eqb_refl. reflexivity.
  - cbn [strings.ContainsByte] in Ha. apply orb_false_iff in Ha as [Hx Ha].
    rewrite append_cons. cbn [strings.CutByte]. rewrite Hx, (IH Ha). reflexivity.
Qed.

Lemma SplitByte_one (a : string) (sep : ascii) :
  strings.ContainsByte a sep = false -> strings.SplitByte a sep = [a].
Proof.
  induction a as [|x a IH]; intros Ha; [reflexivity|].
  cbn [strings.ContainsByte] in Ha. apply orb_false_iff in Ha as [Hx Ha].
  cbn [strings.SplitByte]. rewrite Hx, (IH Ha). reflexivity.
Qed.

Lemma SplitByte_app (a b : string) (sep : ascii) :
  strings.ContainsByte a sep = false ->
  strings.SplitByte (a ++ String sep b) sep = a :: strings.SplitByte b sep.
Proof.
  induction a as [|x a IH]; intros Ha.
  - rewrite append_nil_l. cbn [strings.SplitByte]. rewrite Ascii.eqb_refl. reflexivity.
  - cbn [strings.ContainsByte] in Ha. apply orb_false_iff in Ha as [Hx Ha].
    rewrite append_cons. cbn [strings.SplitByte]. rewrite Hx, (IH Ha). reflexivity.
Qed.

(** Splitting undoes joining, when no piece holds the separator. *)
Lemma SplitByte_concat (pieces : list string) (sep : ascii) :
  pieces <> [] ->
  Forall (fun p => strings.ContainsByte p sep = false) pieces ->
  strings.SplitByte (String.concat (String sep "") pieces) sep = pieces.
Proof.
  intros Hne Hall. induction Hall as [|p pieces Hp Hall IH]; [congruence|].
  destruct pieces as [|q pieces].
  - cbn [String.concat]. apply SplitByte_one. exact Hp.
  - change (String.concat (String sep "") (p :: q :: pieces))
      with (p ++ String sep "" ++ String.concat (String sep "") (q :: pieces)).
    rewrite append_cons, append_nil_l, (SplitByte_app _ _ _ Hp), IH by discriminate.
    reflexivity.
Qed.

(** *** [Encode] writes the pairs joined by ampersands *)

Lemma append_not_empty_r (a b : string) : b <> "" -> a ++ b <> "".
Proof. destruct a; [rewrite append_nil_l; auto | rewrite append_cons; discriminate]. Qed.

Lemma fold_joinStep (pieces : list string) (buf : string) :
  Forall (fun p => p <> "") pieces ->
  fold_left joinStep pieces buf
  = match pieces with
    | [] => buf
    | _ :: _ => (if strings.eqb buf "" then buf else buf ++ "&")
                  ++ String.concat "&" pieces
    end.
Proof.
  intros Hall. revert buf. induction Hall as [|p pieces Hp Hall IH]; intros buf.
  - reflexivity.
  - cbn [fold_left]. rewrite IH. destruct pieces as [|q pieces]; [reflexivity|].
    assert (Hstep : strings.eqb (joinStep buf p) "" = false).
    { apply strings_eqb_neq. unfold joinStep. apply append_not_empty_r. exact Hp. }
    rewrite Hstep. unfold joinStep.
    change (String.concat "&" (p :: q :: pieces))
      with (p ++ "&" ++ String.concat "&" (q :: pieces)).
    rewrite !append_assoc. reflexivity.
Qed.

Lemma queryPair_not_empty (k v : string) : queryPair k v <> "".
Proof.
  unfold queryPair. apply append_not_empty_r. rewrite append_cons. discriminate.
Qed.

Lemma Encode_concat (v : gmap string (list string)) :
  url.Encode v = String.concat "&" (queryPairs v).
Proof.
  unfold url.Encode, queryPairs, sortedPairs.
  assert (Hfold : forall keys buf,
    fold_left (fun buf k =>
                 fold_left (url.writePair (url.QueryEscape k)) (v !!! k) buf) keys buf
    = fold_left joinStep
        (map (fun kv => queryPair (fst kv) (snd kv))
             (flat_map (fun k => map (pair k) (v !!! k)) keys)) buf).
  { induction keys as [|k keys IH]; intros buf; [reflexivity|].
    cbn [fold_left flat_map]. rewrite map_app, fold_left_app, IH. f_equal.
    generalize (v !!! k). intros vals. revert buf.
    induction vals as [|val vals IHv]; intros buf; [reflexivity|].
    cbn [fold_left map]. rewrite IHv. reflexivity. }
  rewrite Hfold, fold_joinStep.
  - destruct (map _ _); reflexivity.
  - apply Forall_forall. intros p Hp. apply list_elem_of_In, in_map_iff in Hp as (kv & <- & _).
    apply queryPair_not_empty.
Qed.

(** *** [ParseQuery] reads back what [Encode] wrote *)

Lemma parsePair_queryPair (k v : string) :
  url.parsePair (queryPair k v) = Some (Some (k, v)).
Proof.
  unfold url.parsePair, queryPair.
  assert (Hsemi : strings.ContainsByte
                    (url.QueryEscape k ++ "=" ++ url.QueryEscape v) ";" = false).
  { rewrite !ContainsByte_app, !QueryEscape_no_delimiter
      by (unfold queryDelimiter; auto). reflexivity. }
  rewrite Hsemi.
  assert (Hne : strings.eqb (url.QueryEscape k ++ "=" ++ url.QueryEscape v) "" = false).
  { apply strings_eqb_neq, queryPair_not_empty. }
  rewrite Hne.
  change ("=" ++ url.QueryEscape v) with (String "=" (url.QueryEscape v)).
  rewrite CutByte_app by (apply QueryEscape_no_delimiter; unfold queryDelimiter; auto).
  rewrite !QueryUnescape_QueryEscape. reflexivity.
Qed.

Lemma queryPair_no_ampersand (k v : string) :
  strings.ContainsByte (queryPair k v) "&" = false.
Proof.
  unfold queryPair.
  rewrite !ContainsByte_app, !QueryEscape_no_delimiter
    by (unfold queryDelimiter; auto). reflexivity.
Qed.

Lemma ParseQuery_concat (kvs : list (string * string)) :
  url.ParseQuery
    (String.concat "&" (map (fun kv => queryPair (fst kv) (snd kv)) kvs))
  = (fold_left addPair kvs ∅, false).
Proof.
  unfold url.ParseQuery. destruct kvs as [|kv kvs]; [reflexivity|].
  rewrite SplitByte_concat.
  - generalize (kv :: kvs). intros l.
    generalize (∅ : gmap string (list string)). generalize false.
    induction l as [|[k v] l IH]; intros err m; [reflexivity|].
    cbn [map fold_left fst snd]. unfold url.parseStep at 2.
    rewrite parsePair_queryPair. apply IH.
  - discriminate.
  - apply Forall_forall. intros p Hp.
    apply list_elem_of_In, in_map_iff in Hp as (x & <- & _).
    apply queryPair_no_ampersand.
Qed.

Lemma fold_addPair_key (k : string) (vals : list string)
      (m : gmap string (list string)) :
  vals <> [] ->
  fold_left addPair (map (pair k) vals) m = <[k := (m !!! k ++ vals)%list]> m.
Proof.
  revert m. induction vals as [|val vals IH]; intros m Hne; [congruence|].
  cbn [map fold_left]. unfold addPair at 2, url.add. cbn [fst snd].
  destruct vals as [|val' vals]; [reflexivity|].
  rewrite IH by discriminate.
  rewrite lookup_total_insert_eq, insert_insert_eq, <- List.app_assoc. reflexivity.
Qed.

Lemma fold_addPair_keys (v : gmap string (list string)) (keys : list string) :
  NoDup keys ->
  (forall k, k ∈ keys -> exists vals, v !! k = Some vals /\ vals <> []) ->
  forall (m : gmap string (list string)) (k : string),
    (forall k', k' ∈ keys -> m !! k' = None) ->
    fold_left addPair (flat_map (fun k => map (pair k) (v !!! k)) keys) m !! k
    = if decide (k ∈ keys) then v !! k else m !! k.
Proof.
  intros Hnodup. induction Hnodup as [|k0 keys Hk0 Hnodup IH]; intros Hv m k Hm.
  - cbn [flat_map fold_left]. rewrite decide_False by apply not_elem_of_nil. reflexivity.
  - cbn [flat_map]. rewrite fold_left_app.
    destruct (Hv k0) as (vals & Hvals & Hne); [left|].
    rewrite (lookup_total_correct _ _ _ Hvals), fold_addPair_key by exact Hne.
    rewrite lookup_total_alt, (Hm k0) by left. cbn [default from_option id app].
    rewrite IH.
    + destruct (decide (k = k0)) as [-> | Hk].
      * rewrite decide_False by exact Hk0. rewrite decide_True by left.
        rewrite lookup_insert_eq, Hvals. reflexivity.
      * rewrite lookup_insert_ne by congruence.
        destruct (decide (k ∈ keys)) as [Hin | Hnin].
        -- rewrite decide_True by (right; exact Hin). reflexivity.
        -- rewrite decide_False; [reflexivity|].
           intros [E | Hin]%elem_of_cons; contradiction.
    + intros k' Hk'. apply Hv. right. exact Hk'.
    + intros k' Hk'. rewrite lookup_insert_ne.
      * apply Hm. right. exact Hk'.
      * intros ->. contradiction.
Qed.

Lemma sortedKeys_Permutation (v : gmap string (list string)) :
  url.sortedKeys v ≡ₚ (map_to_list v).*1.
Proof. unfold url.sortedKeys. apply merge_sort_Permutation. Qed.

Lemma elem_of_sortedKeys (v : gmap string (list string)) (k : string) :
  k ∈ url.sortedKeys v <-> is_Some (v !! k).
Proof.
  rewrite sortedKeys_Permutation, list_elem_of_fmap. split.
  - intros ([k' vals] & -> & Hin). apply elem_of_map_to_list in Hin. eauto.
  - intros [vals Hvals]. exists (k, vals). split; [reflexivity|].
    apply elem_of_map_to_list. exact Hvals.
Qed.

Lemma NoDup_sortedKeys (v : gmap string (list string)) : NoDup (url.sortedKeys v).
Proof. rewrite sortedKeys_Permutation. apply NoDup_fst_map_to_list. Qed.

(** [ParseQuery(v.Encode())] is [v], without error. *)
Lemma ParseQuery_Encode (v : gmap string (list string)) :
  populated v -> url.ParseQuery (url.Encode v) = (v, false).
Proof.
  intros Hpop. rewrite Encode_concat. unfold queryPairs.
  rewrite ParseQuery_concat. f_equal. apply map_eq. intros k.
  unfold sortedPairs. rewrite (fold_addPair_keys v).
  - destruct (decide (k ∈ url.sortedKeys v)) as [Hin | Hnin]; [reflexivity|].
    rewrite lookup_empty. symmetry. apply eq_None_not_Some.
    intros Hsome. apply Hnin, elem_of_sortedKeys. exact Hsome.
  - apply NoDup_sortedKeys.
  - intros k' [vals Hvals]%elem_of_sortedKeys. exists vals. split; [exact Hvals|].
    eapply Hpop. exact Hvals.
  - intros k' _. apply lookup_empty.
Qed.

(** *** Merging parameters into a URL *)

Lemma populated_add (m : gmap string (list string)) (k v : string) :
  populated m -> populated (url.add m k v).
Proof.
  intros Hm k' vals. unfold url.add.
  destruct (decide (k' = k)) as [-> | Hk].
  - rewrite lookup_insert_eq. intros [= <-]. destruct (m !!! k); discriminate.
  - rewrite lookup_insert_ne by congruence. apply Hm.
Qed.

Lemma ParseQuery_populated (query : string) : populated (url.ParseQuery query).1.
Proof.
  unfold url.ParseQuery.
  assert (H : forall l acc, populated acc.1 -> populated (fold_left url.parseStep l acc).1).
  { induction l as [|key l IH]; intros acc Hacc; [exact Hacc|].
    cbn [fold_left]. apply IH. destruct acc as [m err]. unfold url.parseStep.
    destruct (url.parsePair key) as [[[k v]|]|]; cbn [fst] in *; try exact Hacc.
    apply populated_add. exact Hacc. }
  apply H. intros k vals. cbn [fst]. rewrite lookup_empty. discriminate.
Qed.

Lemma lookup_mergeParams (params : gmap string string)
      (q : gmap string (list string)) (k : string) :
  mergeParams params q !! k
  = match params !! k with
    | Some v => Some [v]
    | None => q !! k
    end.
Proof.
  unfold mergeParams. revert k.
  apply (map_fold_weak_ind
           (fun r (m : gmap string string) =>
              forall k, r !! k = match m !! k with
                                 | Some v => Some [v]
                                 | None => q !! k
                                 end)).
  - intros k. rewrite lookup_empty. reflexivity.
  - intros i x m r Hi IH k. unfold url.Set_.
    destruct (decide (k = i)) as [-> | Hk].
    + rewrite !lookup_insert_eq. reflexivity.
    + rewrite !lookup_insert_ne by congruence. apply IH.
Qed.

Lemma populated_mergeParams (params : gmap string string)
      (q : gmap string (list string)) :
  populated q -> populated (mergeParams params q).
Proof.
  intros Hq k vals. rewrite lookup_mergeParams.
  destruct (params !! k); [intros [= <-]; discriminate | apply Hq].
Qed.

Lemma String_setRawQuery (u : url.URL) (rawQuery : string) :
  rawQuery <> "" ->
  url.String_ (url.setRawQuery u rawQuery) = urlWithQuery u rawQuery.
Proof.
  intros Hne. unfold url.String_, urlWithQuery.
  change (url.stringBeforeQuery (url.setRawQuery u rawQuery))
    with (url.stringBeforeQuery u).
  change (url.stringAfterQuery (url.setRawQuery u rawQuery))
    with (url.stringAfterQuery u).
  change (url.RawQuery (url.setRawQuery u rawQuery)) with rawQuery.
  apply strings_eqb_neq in Hne. rewrite Hne, orb_true_r.
  rewrite append_assoc. reflexivity.
Qed.

Lemma addParamsToURL_Parse (params : gmap string string) (originURL : string) :
  addParamsToURL params originURL
  = (fun u => url.String_
                (url.setRawQuery u
                   (url.Encode (mergeParams params (url.ParseQuery (url.RawQuery u)).1))))
      <$> url.Parse originURL.
Proof.
  unfold addParamsToURL, mergeParams.
  destruct (url.Parse originURL) as [u|]; [|reflexivity].
  cbn [fmap option_fmap option_map].
  destruct (url.ParseQuery (url.RawQuery u)) as [q err]. reflexivity.
Qed.

Lemma concat_not_empty (p : string) (pieces : list string) :
  p <> "" -> String.concat "&" (p :: pieces) <> "".
Proof.
  intros Hp. destruct pieces as [|q pieces]; [exact Hp|].
  change (String.concat "&" (p :: q :: pieces))
    with (p ++ "&" ++ String.concat "&" (q :: pieces)).
  destruct p; [congruence | rewrite append_cons; discriminate].
Qed.

(** each pair of a populated map is one of the pieces [Encode] joins *)
Lemma queryPair_in_queryPairs (v : gmap string (list string))
      (k val : string) (vals : list string) :
  v !! k = Some vals -> In val vals -> In (queryPair k val) (queryPairs v).
Proof.
  intros Hk Hval. unfold queryPairs, sortedPairs.
  apply in_map_iff. exists (k, val). split; [reflexivity|].
  apply in_flat_map. exists k. split.
  - apply list_elem_of_In, elem_of_sortedKeys. eauto.
  - rewrite (lookup_total_correct _ _ _ Hk). apply in_map. exact Hval.
Qed.

Lemma Encode_not_empty (v : gmap string (list string)) (k val : string) :
  v !! k = Some [val] -> url.Encode v <> "".
Proof.
  intros Hk. rewrite Encode_concat.
  pose proof (queryPair_in_queryPairs v k val [val] Hk (or_introl eq_refl)) as Hin.
  destruct (queryPairs v) as [|p pieces] eqn:Hpieces; [destruct Hin|].
  apply concat_not_empty.
  assert (Hp : In p (queryPairs v)) by (rewrite Hpieces; left; reflexivity).
  unfold queryPairs in Hp. apply in_map_iff in Hp as (kv & <- & _).
  apply queryPair_not_empty.
Qed.

(** C8, as the code has it.  For a URL that [url.Parse] accepts and any
    parameters, [addParamsToURL] returns the parsed URL, as [u.String()]
    writes it, with a new query: the encoding of a map that binds each key
    of the parameters to its one new value and every other key to the
    values [url.ParseQuery] read for it in the old query, in their order.
    Reading the new query back gives that map, without error.  (Pairs of
    the old query that [url.ParseQuery] rejects are not in the map it
    reads.)  The new query, when not empty, stands after a [?] between what
    [u.String()] writes before and after a query; the input's own text is
    not promised to come back, and [addParamsToURL_rewrites_text] shows it
    changing. *)
Theorem addParamsToURL_merges
        (params : gmap string string) (originURL : string) (u : url.URL) :
  url.Parse originURL = Some u ->
  exists q' : gmap string (list string),
    addParamsToURL params originURL
    = Some (url.String_ (url.setRawQuery u (url.Encode q')))
    /\ (url.Encode q' <> "" ->
        url.String_ (url.setRawQuery u (url.Encode q'))
        = url.stringBeforeQuery u ++ "?" ++ url.Encode q' ++ url.stringAfterQuery u)
    /\ url.ParseQuery (url.Encode q') = (q', false)
    /\ (forall k v, params !! k = Some v -> q' !! k = Some [v])
    /\ (forall k, params !! k = None ->
                  q' !! k = (url.ParseQuery (url.RawQuery u)).1 !! k).
Proof.
  intros Hparse.
  exists (mergeParams params (url.ParseQuery (url.RawQuery u)).1).
  split; [|split; [|split; [|split]]].
  - rewrite addParamsToURL_Parse, Hparse. reflexivity.
  - intros Hne. apply String_setRawQuery. exact Hne.
  - apply ParseQuery_Encode, populated_mergeParams, ParseQuery_populated.
  - intros k v Hk. rewrite lookup_mergeParams, Hk. reflexivity.
  - intros k Hk. rewrite lookup_mergeParams, Hk. reflexivity.
Qed.

Lemma Parse_baseAPI : url.Parse baseAPI = Some baseAPI_URL.
Proof. vm_compute. reflexivity. Qed.

Lemma Parse_queriedURL :
  url.Parse "https://oapi.dingtalk.com/robot/send?already=here&access_token=old"
  = Some queriedURL.
Proof. vm_compute. reflexivity. Qed.

(** On a URL whose query has one pair to keep and one to overwrite. *)
Lemma addParamsToURL_merges_witness :
  url.Parse "https://oapi.dingtalk.com/robot/send?already=here&access_token=old"
  = Some queriedURL
  /\ addParamsToURL {[ "access_token" := "tok" ]}
       "https://oapi.dingtalk.com/robot/send?already=here&access_token=old"
     = Some "https://oapi.dingtalk.com/robot/send?access_token=tok&already=here"
  /\ exists q' : gmap string (list string),
       addParamsToURL {[ "access_token" := "tok" ]}
         "https://oapi.dingtalk.com/robot/send?already=here&access_token=old"
       = Some (url.String_ (url.setRawQuery queriedURL (url.Encode q')))
       /\ q' !! "access_token" = Some ["tok"]
       /\ q' !! "already" = Some ["here"].
Proof.
  split; [exact Parse_queriedURL|]. split; [vm_compute; reflexivity|].
  destruct (addParamsToURL_merges {[ "access_token" := "tok" ]} _ _ Parse_queriedURL)
    as (q' & Hres & _ & _ & Hset & Hkeep).
  exists q'. split; [exact Hres|]. split.
  - apply Hset. apply lookup_singleton_eq.
  - rewrite Hkeep by (apply lookup_singleton_ne; discriminate).
    vm_compute. reflexivity.
Defined.

(** A pair with a malformed escape is in the query of the URL and not in
    the query of the result, though [a] is not a key being set. *)
Lemma addParamsToURL_drops_malformed_pair :
  addParamsToURL {[ "b" := "1" ]} "http://example.com/send?a=%zz&c=3"
  = Some "http://example.com/send?b=1&c=3"
  /\ In "a=%zz" (strings.SplitByte "a=%zz&c=3" "&")
  /\ strings.Contains "http://example.com/send?b=1&c=3" "a=" = false.
Proof. repeat split; vm_compute; auto. Qed.

(** The text around the query is the one [u.String()] writes, not the
    input's: the scheme comes back in lower case and a space of the path
    escaped. *)
Lemma addParamsToURL_rewrites_text :
  addParamsToURL {[ "b" := "1" ]} "HTTP://example.com/send?x=1"
  = Some "http://example.com/send?b=1&x=1"
  /\ addParamsToURL {[ "b" := "1" ]} "http://example.com/a b?x=1"
     = Some "http://example.com/a%20b?b=1&x=1".
Proof. split; vm_compute; reflexivity. Qed.

(** *** What [sendPayload] posts to *)

Example FormatInt_examples :
  map strconv.FormatInt [0; 404; -42; 1577808000000]%Z
  = ["0"; "404"; "-42"; "1577808000000"].
Proof. vm_compute. reflexivity. Qed.

Lemma QueryEscape_uint (d : Decimal.uint) :
  url.QueryEscape (NilEmpty.string_of_uint d) = NilEmpty.string_of_uint d.
Proof.
  unfold url.QueryEscape.
  induction d as [|d IH|d IH|d IH|d IH|d IH|d IH|d IH|d IH|d IH|d IH];
    [reflexivity| cbn [NilEmpty.string_of_uint url.escape];
                  rewrite IH; reflexivity ..].
Qed.

(** a decimal number is written in a query as it is *)
Lemma QueryEscape_FormatInt (i : Z) :
  url.QueryEscape (strconv.FormatInt i) = strconv.FormatInt i.
Proof.
  unfold strconv.FormatInt, NilZero.string_of_int, NilZero.string_of_uint.
  destruct (Z.to_int i) as [d|d].
  - destruct d; try reflexivity; apply QueryEscape_uint.
  - destruct d; try reflexivity;
      change (url.QueryEscape (String "-" ?s)) with (String "-" (url.QueryEscape s));
      unfold url.QueryEscape; cbn [url.escape];
      change (url.shouldEscape "-" url.encodeQueryComponent) with false;
      cbv beta iota; f_equal; apply QueryEscape_uint.
Qed.

(** Two keys of a map come in [sortedKeys] in their order. *)
Lemma sortedKeys_order (v : gmap string (list string)) (a b : string) :
  is_Some (v !! a) -> is_Some (v !! b) -> String.leb b a = false ->
  exists l1 l2 l3, url.sortedKeys v = (l1 ++ [a] ++ l2 ++ [b] ++ l3)%list.
Proof.
  intros Ha Hb Hlt.
  assert (Hsorted : StronglySorted String.le (url.sortedKeys v))
    by (apply StronglySorted_merge_sort; apply _).
  apply elem_of_sortedKeys in Ha, Hb.
  apply list_elem_of_split in Ha as (l1 & r & Hkeys).
  rewrite Hkeys in Hb, Hsorted.
  assert (Hnle : ~ String.le b a).
  { unfold String.le. rewrite Hlt. exact id. }
  apply elem_of_app in Hb as [Hb | Hb].
  - exfalso. apply Hnle.
    apply (StronglySorted_app_1_elem_of _ _ _ _ _ Hsorted Hb). left.
  - apply elem_of_cons in Hb as [-> | Hb].
    + exfalso. apply Hnle. reflexivity.
    + apply list_elem_of_split in Hb as (l2 & l3 & ->).
      exists l1, l2, l3. exact Hkeys.
Qed.

Lemma queryPairs_order (v : gmap string (list string)) (a b va vb : string) :
  v !! a = Some [va] -> v !! b = Some [vb] -> String.leb b a = false ->
  exists p1 p2 p3,
    queryPairs v = (p1 ++ [queryPair a va] ++ p2 ++ [queryPair b vb] ++ p3)%list.
Proof.
  intros Ha Hb Hlt.
  destruct (sortedKeys_order v a b) as (l1 & l2 & l3 & Hkeys); eauto.
  unfold queryPairs, sortedPairs. rewrite Hkeys.
  rewrite !flat_map_app, !map_app. cbn [flat_map].
  rewrite (lookup_total_correct _ _ _ Ha), (lookup_total_correct _ _ _ Hb).
  cbn [map app fst snd]. eauto.
Qed.

(** The keys [sendPayload] sets, sorted. *)
Lemma sortedKeys_three (tok sig ts : string) :
  url.sortedKeys (<["sign" := [sig]]> (<["timestamp" := [ts]]>
                    (<["access_token" := [tok]]> ∅)))
  = ["access_token"; "sign"; "timestamp"].
Proof.
  apply (Sorted_unique String.le).
  - apply Sorted_merge_sort; apply _.
  - repeat constructor.
  - rewrite sortedKeys_Permutation.
    rewrite map_to_list_insert
      by (rewrite !lookup_insert_ne by discriminate; apply lookup_empty).
    rewrite map_to_list_insert
      by (rewrite !lookup_insert_ne by discriminate; apply lookup_empty).
    rewrite map_to_list_insert by apply lookup_empty.
    rewrite map_to_list_empty. cbn [fmap list_fmap fst].
    apply (Permutation_app_comm ["sign"; "timestamp"] ["access_token"]).
Qed.

Lemma mergeParams_empty (params : gmap string string) :
  mergeParams params ∅ = (fun v => [v]) <$> params.
Proof.
  apply map_eq. intros k. rewrite lookup_mergeParams, lookup_fmap, lookup_empty.
  destruct (params !! k); reflexivity.
Qed.

Lemma postedTo_requestURL (rt : Runtime) (payload : PayLoad) (s : State) (u : string) :
  requestURL rt (hook s) = Some u -> postedTo rt payload s u.
Proof. intros Hu. unfold postedTo. rewrite sendPayload_run, Hu. reflexivity. Qed.

(** On a base URL that [url.Parse] rejects, [addParamsToURL] dereferences
    nil: [sendPayload] panics and nothing is sent. *)
Lemma sendPayload_panics (rt : Runtime) (payload : PayLoad) (s : State) :
  requestURL rt (hook s) = None ->
  sendPayload rt payload s
  = (Panicked "invalid memory address or nil pointer dereference", s).
Proof. intros Hu. rewrite sendPayload_run, Hu. reflexivity. Qed.

Section RequestURL.

Variable rt : Runtime.
Variable w : WebHook.

Let override : bool := strings.Contains (AccessToken w) (APIURL w).

Lemma requestParams_access_token :
  requestParams rt w !! "access_token"
  = if override then None else Some (AccessToken w).
Proof.
  unfold requestParams. fold override.
  destruct override, (strings.eqb (Secret w) "");
    rewrite ?lookup_insert_ne by discriminate;
    rewrite ?lookup_empty, ?lookup_singleton_eq; reflexivity.
Qed.

Lemma requestParams_sign :
  Secret w <> "" ->
  requestParams rt w !! "sign" = Some (signNow rt (Secret w))
  /\ requestParams rt w !! "timestamp" = Some (timestampNow rt).
Proof.
  intros Hsecret%strings_eqb_neq. unfold requestParams. rewrite Hsecret.
  rewrite lookup_insert_eq, lookup_insert_ne, lookup_insert_eq by discriminate.
  auto.
Qed.

Lemma requestParams_size :
  override = false \/ Secret w <> "" ->
  (0 <? size (requestParams rt w))%nat = true.
Proof.
  intros H. apply Nat.ltb_lt.
  assert (Hne : requestParams rt w <> ∅).
  { destruct H as [H | H].
    - intros E. pose proof requestParams_access_token as Hk.
      rewrite H, E, lookup_empty in Hk. discriminate Hk.
    - intros E. destruct (requestParams_sign H) as [Hk _].
      rewrite E, lookup_empty in Hk. discriminate Hk. }
  apply map_size_non_empty_iff in Hne. lia.
Qed.

Lemma requestURL_plain :
  override = true -> Secret w = "" -> requestURL rt w = Some (AccessToken w).
Proof.
  intros Ho Hs%strings_eqb_eq. unfold requestURL, requestParams, requestBase.
  fold override. rewrite Ho, Hs. reflexivity.
Qed.

Lemma requestURL_addParams :
  override = false \/ Secret w <> "" ->
  requestURL rt w = addParamsToURL (requestParams rt w) (requestBase w).
Proof. intros H. unfold requestURL. rewrite (requestParams_size H). reflexivity. Qed.

Lemma requestURL_merged (u : url.URL) :
  override = false \/ Secret w <> "" ->
  url.Parse (requestBase w) = Some u ->
  requestURL rt w
  = Some (urlWithQuery u
            (url.Encode (mergeParams (requestParams rt w)
                                     (url.ParseQuery (url.RawQuery u)).1))).
Proof.
  intros H Hparse. rewrite (requestURL_addParams H), addParamsToURL_Parse, Hparse.
  cbn [fmap option_fmap option_map]. f_equal. apply String_setRawQuery.
  destruct H as [H | H].
  - apply (Encode_not_empty _ "access_token" (AccessToken w)).
    rewrite lookup_mergeParams, requestParams_access_token, H. reflexivity.
  - apply (Encode_not_empty _ "sign" (signNow rt (Secret w))).
    rewrite lookup_mergeParams. destruct (requestParams_sign H) as [-> _].
    reflexivity.
Qed.

End RequestURL.

Lemma SplitByte_Encode (v : gmap string (list string)) :
  queryPairs v <> [] -> strings.SplitByte (url.Encode v) "&" = queryPairs v.
Proof.
  intros Hne. rewrite Encode_concat. apply (SplitByte_concat _ "&" Hne).
  apply Forall_forall. intros p Hp. unfold queryPairs in Hp.
  apply list_elem_of_In, in_map_iff in Hp as (kv & <- & _).
  apply queryPair_no_ampersand.
Qed.

Lemma queryPair_access_token (tok : string) :
  queryPair "access_token" tok = "access_token=" ++ url.QueryEscape tok.
Proof. reflexivity. Qed.

(** How [sendPayload] resolves the URL it posts to, where it posts:
    when the access token contains the API base URL, the token is the
    endpoint and no [access_token] parameter is set, so that with no secret
    the POST goes to the token as it is (to [apiURL + "?already=here"] when
    that is the token); otherwise [access_token] is bound to the token and
    merged by [addParamsToURL] into the base API URL, whose query then holds
    the pair [access_token=<token>], provided [url.Parse] accepts the API
    URL. *)
Theorem sendPayload_url_resolution (rt : Runtime) (payload : PayLoad) (s : State) :
  let w := hook s in
  (forall u, requestURL rt w = Some u -> postedTo rt payload s u)
  /\ (strings.Contains (AccessToken w) (APIURL w) = true ->
      requestParams rt w !! "access_token" = None
      /\ (Secret w = "" -> postedTo rt payload s (AccessToken w))
      /\ (Secret w <> "" ->
          requestURL rt w = addParamsToURL (requestParams rt w) (AccessToken w)))
  /\ (strings.Contains (AccessToken w) (APIURL w) = false ->
      requestParams rt w !! "access_token" = Some (AccessToken w)
      /\ requestURL rt w = addParamsToURL (requestParams rt w) (APIURL w)
      /\ forall u, url.Parse (APIURL w) = Some u ->
           exists q' : gmap string (list string),
             postedTo rt payload s (urlWithQuery u (url.Encode q'))
             /\ q' !! "access_token" = Some [AccessToken w]
             /\ url.ParseQuery (url.Encode q') = (q', false)
             /\ In ("access_token=" ++ url.QueryEscape (AccessToken w))
                   (strings.SplitByte (url.Encode q') "&"))
  /\ (forall log,
        postedTo rt payload
                 {| hook := {| AccessToken := baseAPI ++ "?already=here";
                               APIURL := baseAPI; Secret := "" |};
                    sent := log |}
                 (baseAPI ++ "?already=here")).
Proof.
  intros w. split; [|split; [|split]].
  - intros u. apply postedTo_requestURL.
  - intros Ho. split; [|split].
    + rewrite requestParams_access_token, Ho. reflexivity.
    + intros Hs. apply postedTo_requestURL, requestURL_plain; assumption.
    + intros Hs. rewrite requestURL_addParams by (right; exact Hs).
      unfold requestBase. rewrite Ho. reflexivity.
  - intros Ho.
    assert (Hbase : requestBase w = APIURL w) by (unfold requestBase; rewrite Ho; reflexivity).
    split; [|split].
    + rewrite requestParams_access_token, Ho. reflexivity.
    + rewrite requestURL_addParams by (left; exact Ho). rewrite Hbase. reflexivity.
    + intros u Hparse. rewrite <- Hbase in Hparse.
      set (q' := mergeParams (requestParams rt w) (url.ParseQuery (url.RawQuery u)).1).
      assert (Hq' : q' !! "access_token" = Some [AccessToken w]).
      { unfold q'. rewrite lookup_mergeParams, requestParams_access_token, Ho.
        reflexivity. }
      assert (Hin : In (queryPair "access_token" (AccessToken w)) (queryPairs q')).
      { apply (queryPair_in_queryPairs _ _ _ _ Hq'). left. reflexivity. }
      exists q'. split; [|split; [|split]].
      * apply postedTo_requestURL, requestURL_merged; [left; exact Ho | exact Hparse].
      * exact Hq'.
      * apply ParseQuery_Encode, populated_mergeParams, ParseQuery_populated.
      * rewrite SplitByte_Encode; [exact Hin|].
        intros E. rewrite E in Hin. destruct Hin.
  - intros log. apply postedTo_requestURL, requestURL_plain; vm_compute; reflexivity.
Qed.

(** C5, where the code fails it.  A client with the bare token [tok] and
    the API URL [127.0.0.1:8080/robot/send]: the token does not contain the
    API URL, so the token is to be appended to it as [access_token].
    [url.Parse] rejects the API URL (no scheme, and a colon in the first
    segment of the path), [addParamsToURL] drops that error and reads
    [u.RawQuery] of a nil [u]: [sendPayload] panics, and [http.Post] is
    not called. *)
Theorem sendPayload_unparsed_APIURL_panics
        (rt : Runtime) (payload : PayLoad) (log : list Request) :
  let w := {| AccessToken := "tok"; APIURL := "127.0.0.1:8080/robot/send";
              Secret := "" |} in
  strings.Contains (AccessToken w) (APIURL w) = false
  /\ url.Parse (APIURL w) = None
  /\ sendPayload rt payload {| hook := w; sent := log |}
     = (Panicked "invalid memory address or nil pointer dereference",
        {| hook := w; sent := log |}).
Proof.
  intros w. split; [vm_compute; reflexivity|]. split; [vm_compute; reflexivity|].
  apply sendPayload_panics. vm_compute. reflexivity.
Qed.

(** *** The signing parameters in the URL *)

Lemma HasPrefix_app (x b : string) : strings.HasPrefix (x ++ b) x = true.
Proof.
  induction x as [|c x IH]; [destruct b; reflexivity|].
  rewrite append_cons. cbn [strings.HasPrefix]. rewrite Ascii.eqb_refl. exact IH.
Qed.

Lemma Contains_HasPrefix (s x : string) :
  strings.HasPrefix s x = true -> strings.Contains s x = true.
Proof. intros H. destruct s; cbn [strings.Contains]; rewrite H; reflexivity. Qed.

Lemma Contains_app_r (a s x : string) :
  strings.Contains s x = true -> strings.Contains (a ++ s) x = true.
Proof.
  intros H. induction a as [|c a IH]; [exact H|].
  rewrite append_cons. cbn [strings.Contains]. rewrite IH. apply orb_true_r.
Qed.

(** a string contains each of its parts *)
Lemma Contains_middle (a x b : string) : strings.Contains (a ++ x ++ b) x = true.
Proof. apply Contains_app_r, Contains_HasPrefix, HasPrefix_app. Qed.

Lemma concat_app_cons (l1 l2 : list string) (p : string) :
  exists a b, String.concat "&" (l1 ++ p :: l2)%list = a ++ p ++ b.
Proof.
  induction l1 as [|q l1 (a & b & IH)].
  - exists "". destruct l2 as [|r l2].
    + exists "". rewrite append_nil_r. reflexivity.
    + exists ("&" ++ String.concat "&" (r :: l2)). reflexivity.
  - exists (q ++ "&" ++ a), b. cbn [app].
    destruct (l1 ++ p :: l2)%list as [|r l] eqn:E.
    + destruct l1; discriminate E.
    + change (String.concat "&" (q :: r :: l))
        with (q ++ "&" ++ String.concat "&" (r :: l)).
      rewrite IH, !append_assoc. reflexivity.
Qed.

Lemma Contains_concat (pieces : list string) (p : string) :
  In p pieces -> strings.Contains (String.concat "&" pieces) p = true.
Proof.
  intros (l1 & l2 & ->)%in_split.
  destruct (concat_app_cons l1 l2 p) as (a & b & ->). apply Contains_middle.
Qed.

Lemma queryPair_sign (rt : Runtime) (w : WebHook) :
  queryPair "sign" (signNow rt (Secret w)) = signPair rt w.
Proof. reflexivity. Qed.

Lemma queryPair_timestamp (rt : Runtime) :
  queryPair "timestamp" (timestampNow rt) = timestampPair rt.
Proof.
  unfold queryPair, timestampPair, timestampNow.
  rewrite QueryEscape_FormatInt. reflexivity.
Qed.

(** C6, as the code has it.  When a secret is configured and the URL
    parses, the query of the URL that [sendPayload] posts to is a list of
    pairs joined by ampersands in which [sign=<urlencoded signature>] comes
    before [timestamp=<timestamp>]: [Encode] writes the keys sorted.  For a
    bare token and a base URL without a query of its own the query is
    [access_token=<token>&sign=<signature>&timestamp=<timestamp>]. *)
Theorem signed_url_query (rt : Runtime) (payload : PayLoad) (s : State) (u : url.URL) :
  Secret (hook s) <> "" ->
  url.Parse (requestBase (hook s)) = Some u ->
  (exists p1 p2 p3 : list string,
     postedTo rt payload s
       (urlWithQuery u
          (String.concat "&"
             (p1 ++ [signPair rt (hook s)] ++ p2 ++ [timestampPair rt] ++ p3)%list)))
  /\ (strings.Contains (AccessToken (hook s)) (APIURL (hook s)) = false ->
      (url.ParseQuery (url.RawQuery u)).1 = ∅ ->
      postedTo rt payload s
        (urlWithQuery u
           ("access_token=" ++ url.QueryEscape (AccessToken (hook s))
            ++ "&" ++ signPair rt (hook s) ++ "&" ++ timestampPair rt))).
Proof.
  intros Hsecret Hparse. set (w := hook s) in *.
  destruct (requestParams_sign rt w Hsecret) as [Hsign Hts].
  pose proof (requestURL_merged rt w u (or_intror Hsecret) Hparse) as Hurl.
  set (q' := mergeParams (requestParams rt w) (url.ParseQuery (url.RawQuery u)).1) in *.
  split.
  - destruct (queryPairs_order q' "sign" "timestamp"
                (signNow rt (Secret w)) (timestampNow rt))
      as (p1 & p2 & p3 & Hpairs).
    + unfold q'. rewrite lookup_mergeParams, Hsign. reflexivity.
    + unfold q'. rewrite lookup_mergeParams, Hts. reflexivity.
    + reflexivity.
    + exists p1, p2, p3. apply postedTo_requestURL. fold w.
      rewrite Hurl, Encode_concat, Hpairs, queryPair_sign, queryPair_timestamp.
      reflexivity.
  - intros Ho Hempty. apply postedTo_requestURL. fold w. rewrite Hurl.
    assert (Hq' : q' = <["sign" := [signNow rt (Secret w)]]>
                         (<["timestamp" := [timestampNow rt]]>
                            (<["access_token" := [AccessToken w]]> ∅))).
    { unfold q'. rewrite Hempty, mergeParams_empty. unfold requestParams.
      rewrite Ho. apply strings_eqb_neq in Hsecret. rewrite Hsecret.
      rewrite !fmap_insert, map_fmap_singleton. reflexivity. }
    rewrite Encode_concat. unfold queryPairs, sortedPairs.
    rewrite Hq', sortedKeys_three. cbn [flat_map].
    rewrite (lookup_total_correct _ "access_token" [AccessToken w])
      by (rewrite !lookup_insert_ne by discriminate; apply lookup_insert_eq).
    rewrite (lookup_total_correct _ "sign" [signNow rt (Secret w)])
      by apply lookup_insert_eq.
    rewrite (lookup_total_correct _ "timestamp" [timestampNow rt])
      by (rewrite lookup_insert_ne by discriminate; apply lookup_insert_eq).
    cbn [map app fst snd String.concat].
    rewrite queryPair_sign, queryPair_timestamp, queryPair_access_token.
    rewrite !append_assoc. reflexivity.
Qed.

Lemma signed_url_query_witness :
  Secret signedHook <> ""
  /\ url.Parse (requestBase signedHook) = Some baseAPI_URL
  /\ postedTo signingRuntime emptyPayLoad (fresh signedHook)
       (urlWithQuery baseAPI_URL
          ("access_token=" ++ url.QueryEscape "tok"
           ++ "&" ++ signPair signingRuntime signedHook
           ++ "&" ++ timestampPair signingRuntime)).
Proof.
  assert (Hsecret : Secret (hook (fresh signedHook)) <> "") by discriminate.
  assert (Hparse : url.Parse (requestBase (hook (fresh signedHook)))
                   = Some baseAPI_URL) by (vm_compute; reflexivity).
  split; [exact Hsecret|]. split; [exact Hparse|].
  apply (signed_url_query signingRuntime emptyPayLoad (fresh signedHook)
                          baseAPI_URL Hsecret Hparse);
    vm_compute; reflexivity.
Defined.

(** With a secret, the URL posted to has [sign] before [timestamp]; the
    text [timestamp=<timestamp>&sign=<signature>] is not in it. *)
Lemma signed_url_has_sign_first :
  sent (snd (sendPayload signingRuntime emptyPayLoad (fresh signedHook)))
  = [ {| Request_URL :=
           "https://oapi.dingtalk.com/robot/send?access_token=tok&sign=ijHEivi6YiCNPZOq4hZstmvZ3sPfbioAiMhP30ae7W0%3D&timestamp=1577808000000";
         Request_ContentType := "application/json";
         Request_Body := "" |} ]
  /\ strings.Contains
       "https://oapi.dingtalk.com/robot/send?access_token=tok&sign=ijHEivi6YiCNPZOq4hZstmvZ3sPfbioAiMhP30ae7W0%3D&timestamp=1577808000000"
       ("timestamp=" ++ timestampNow signingRuntime
        ++ "&sign=" ++ url.QueryEscape (signNow signingRuntime (Secret signedHook)))
     = false.
Proof. split; vm_compute; reflexivity. Qed.

(** *** A token that is a full URL, with a secret *)

Lemma mergeParams_sign (rt : Runtime) (w : WebHook) (q : gmap string (list string)) :
  strings.Contains (AccessToken w) (APIURL w) = true ->
  Secret w <> "" ->
  mergeParams (requestParams rt w) q
  = <["sign" := [signNow rt (Secret w)]]> (<["timestamp" := [timestampNow rt]]> q).
Proof.
  intros Ho Hsecret. apply map_eq. intros k. rewrite lookup_mergeParams.
  unfold requestParams. rewrite Ho. apply strings_eqb_neq in Hsecret. rewrite Hsecret.
  destruct (decide (k = "sign")) as [-> | Hsign].
  { rewrite !lookup_insert_eq. reflexivity. }
  rewrite !(lookup_insert_ne _ "sign") by congruence.
  destruct (decide (k = "timestamp")) as [-> | Hts].
  { rewrite !lookup_insert_eq. reflexivity. }
  rewrite !(lookup_insert_ne _ "timestamp") by congruence.
  rewrite lookup_empty. reflexivity.
Qed.

(** C9, as the code has it.  When the access token contains the API base
    URL, parses as a URL and a secret is configured, [sendPayload] posts to
    the token with its query rewritten: the pairs [url.ParseQuery] reads
    in it, with [timestamp] and [sign] set, written back sorted and
    escaped.  The URL posted to always holds the pair
    [sign=<urlencoded signature>]; so it is not the token, unless the token
    held that very pair already. *)
Theorem signed_override_url
        (rt : Runtime) (payload : PayLoad) (s : State) (u : url.URL) :
  strings.Contains (AccessToken (hook s)) (APIURL (hook s)) = true ->
  Secret (hook s) <> "" ->
  url.Parse (AccessToken (hook s)) = Some u ->
  let q' := <["sign" := [signNow rt (Secret (hook s))]]>
              (<["timestamp" := [timestampNow rt]]>
                 (url.ParseQuery (url.RawQuery u)).1) in
  let posted := urlWithQuery u (url.Encode q') in
  postedTo rt payload s posted
  /\ url.ParseQuery (url.Encode q') = (q', false)
  /\ strings.Contains posted (signPair rt (hook s)) = true
  /\ (strings.Contains (AccessToken (hook s)) (signPair rt (hook s)) = false ->
      posted <> AccessToken (hook s)).
Proof.
  intros Ho Hsecret Hparse q' posted. set (w := hook s) in *.
  assert (Hbase : requestBase w = AccessToken w)
    by (unfold requestBase; rewrite Ho; reflexivity).
  assert (Hcontains : strings.Contains posted (signPair rt w) = true).
  { unfold posted, urlWithQuery. apply Contains_app_r, Contains_app_r.
    rewrite Encode_concat.
    assert (Hin : In (signPair rt w) (queryPairs q')).
    { rewrite <- queryPair_sign.
      apply (queryPair_in_queryPairs q' "sign" _ [signNow rt (Secret w)]).
      - apply lookup_insert_eq.
      - left. reflexivity. }
    apply in_split in Hin as (l1 & l2 & ->).
    destruct (concat_app_cons l1 l2 (signPair rt w)) as (a & b & ->).
    rewrite !append_assoc. apply Contains_middle. }
  split; [|split; [|split]].
  - apply postedTo_requestURL. fold w. rewrite <- Hbase in Hparse.
    rewrite (requestURL_merged rt w u (or_intror Hsecret) Hparse).
    rewrite (mergeParams_sign rt w _ Ho Hsecret). reflexivity.
  - apply ParseQuery_Encode. unfold q'.
    rewrite <- (mergeParams_sign rt w _ Ho Hsecret).
    apply populated_mergeParams, ParseQuery_populated.
  - exact Hcontains.
  - intros Hnot E. rewrite E, Hnot in Hcontains. discriminate Hcontains.
Qed.

Lemma signed_override_url_witness :
  strings.Contains (AccessToken overrideHook) (APIURL overrideHook) = true
  /\ Secret overrideHook <> ""
  /\ sent (snd (sendPayload signingRuntime emptyPayLoad (fresh overrideHook)))
     = [ {| Request_URL :=
              "https://oapi.dingtalk.com/robot/send?already=here&sign=ijHEivi6YiCNPZOq4hZstmvZ3sPfbioAiMhP30ae7W0%3D&timestamp=1577808000000";
            Request_ContentType := "application/json";
            Request_Body := "" |} ].
Proof.
  assert (Ho : strings.Contains (AccessToken (hook (fresh overrideHook)))
                                (APIURL (hook (fresh overrideHook))) = true)
    by (vm_compute; reflexivity).
  assert (Hsecret : Secret (hook (fresh overrideHook)) <> "") by discriminate.
  assert (Hparse : url.Parse (AccessToken (hook (fresh overrideHook)))
                   = Some (url.setRawQuery baseAPI_URL "already=here"))
    by (vm_compute; reflexivity).
  split; [exact Ho|]. split; [exact Hsecret|].
  destruct (signed_override_url signingRuntime emptyPayLoad (fresh overrideHook)
              _ Ho Hsecret Hparse) as [Hposted _].
  unfold postedTo in Hposted. rewrite Hposted. vm_compute. reflexivity.
Defined.

(** A token that already is its own re-encoding, signature included, is
    posted to as it is, though a secret is configured. *)
Lemma presigned_token_posted_verbatim :
  strings.Contains (AccessToken presignedHook) (APIURL presignedHook) = true
  /\ Secret presignedHook <> ""
  /\ sent (snd (sendPayload signingRuntime emptyPayLoad (fresh presignedHook)))
     = [ {| Request_URL := AccessToken presignedHook;
            Request_ContentType := "application/json";
            Request_Body := "" |} ].
Proof. split; [|split]; [vm_compute; reflexivity | discriminate | vm_compute; reflexivity]. Qed.


(** ** Further properties of the package *)

(** *** The buttons of an action card *)

Lemma inject_zip (linkTitles linkUrls : list string) :
  length linkUrls = length linkTitles ->
  forall (n i : nat) (buttons : list Button),
    (i + n = length linkTitles)%nat ->
    inject linkTitles linkUrls i n buttons
    = Some (buttons ++ zip_with button (drop i linkTitles) (drop i linkUrls))%list.
Proof.
  intros Hlen. induction n as [|n IH]; intros i buttons Hi.
  - cbn [inject]. rewrite !drop_ge by lia. cbn [zip_with].
    rewrite app_nil_r. reflexivity.
  - cbn [inject].
    destruct (lookup_lt_is_Some_2 linkTitles i) as [t Ht]; [lia|].
    destruct (lookup_lt_is_Some_2 linkUrls i) as [u Hu]; [lia|].
    rewrite Ht, Hu, IH by lia.
    rewrite (drop_S _ _ _ Ht), (drop_S _ _ _ Hu). cbn [zip_with].
    rewrite <- List.app_assoc. reflexivity.
Qed.

(** X1. With as many URLs as titles, and at least one, [SendActionCardMsg]
    passes both guards, never indexes out of range, and sends the action
    card with one button per title and URL, paired in order, and the flags
    written as [1] or [0]. *)
Theorem SendActionCardMsg_buttons
        (rt : Runtime) (title content : string) (linkTitles linkUrls : list string)
        (hideAvatar btnOrientation : bool) :
  linkTitles <> [] ->
  length linkUrls = length linkTitles ->
  SendActionCardMsg rt title content linkTitles linkUrls hideAvatar btnOrientation
  = sendPayload rt
      (actionCardPayload title content (zip_with button linkTitles linkUrls)
                         hideAvatar btnOrientation).
Proof.
  intros Hne Hlen. unfold SendActionCardMsg.
  destruct linkTitles as [|t ts]; [congruence|].
  destruct linkUrls as [|u us]; [discriminate Hlen|].
  change ((0 =? length (t :: ts))%nat || (0 =? length (u :: us))%nat) with false.
  cbv beta iota. rewrite Hlen, Nat.eqb_refl. cbn [negb].
  rewrite (inject_zip (t :: ts) (u :: us) Hlen (length (t :: ts)) 0 [])
    by reflexivity.
  reflexivity.
Qed.

Lemma SendActionCardMsg_buttons_witness :
  ["Baidu Search"] <> []
  /\ SendActionCardMsg (exampleRuntime 0 (PostResponse 200 "ok"))
       "A action card message" "This is a action card message"
       ["Baidu Search"] ["https://www.baidu.com"] true true
     = sendPayload (exampleRuntime 0 (PostResponse 200 "ok"))
         (actionCardPayload "A action card message" "This is a action card message"
            [button "Baidu Search" "https://www.baidu.com"] true true).
Proof.
  assert (Hne : ["Baidu Search"] <> ([] : list string)) by discriminate.
  split; [exact Hne|].
  apply (SendActionCardMsg_buttons _ _ _ ["Baidu Search"] ["https://www.baidu.com"]
           true true Hne eq_refl).
Defined.

(** *** One call of [http.Post] at most *)

Lemma sendPayload_calledPostAtMostOnce
      (rt : Runtime) (payload : PayLoad) (s : State) :
  calledPostAtMostOnce s (snd (sendPayload rt payload s)).
Proof.
  rewrite sendPayload_run. unfold calledPostAtMostOnce.
  destruct (requestURL rt (hook s)) as [u|]; cbn [snd hook sent].
  - split; [reflexivity|]. right. exists (requestOf rt u payload). auto.
  - auto.
Qed.

Lemma calledPostAtMostOnce_refl (s : State) : calledPostAtMostOnce s s.
Proof. unfold calledPostAtMostOnce. auto. Qed.

(** X2. [sendPayload] and the five builders call [http.Post] at most once
    per call, with the content type [application/json]: there is no retry
    and no second call site.  The calls made before stay on record in their
    order and the client is the same.  When [sendPayload] returns, with an
    error or without, it has called [http.Post] exactly once, with
    [json.Marshal] of the payload as the body; when it panics it has not
    called it.  (What [http.Post] does with one call, redirects included,
    is the library's.) *)
Theorem send_operations_call_Post_at_most_once (rt : Runtime) (s : State) :
  (forall payload, calledPostAtMostOnce s (snd (sendPayload rt payload s)))
  /\ (forall content isAtAll mobiles,
        calledPostAtMostOnce s (snd (SendTextMsg rt content isAtAll mobiles s)))
  /\ (forall title content picURL msgURL,
        calledPostAtMostOnce s (snd (SendLinkMsg rt title content picURL msgURL s)))
  /\ (forall title content isAtAll mobiles,
        calledPostAtMostOnce s
          (snd (SendMarkdownMsg rt title content isAtAll mobiles s)))
  /\ (forall title content linkTitles linkUrls hideAvatar btnOrientation,
        calledPostAtMostOnce s
          (snd (SendActionCardMsg rt title content linkTitles
                  linkUrls hideAvatar btnOrientation s)))
  /\ (forall messages, calledPostAtMostOnce s (snd (SendLinkCardMsg rt messages s)))
  /\ (forall payload err,
        fst (sendPayload rt payload s) = Returned err ->
        exists u, sent (snd (sendPayload rt payload s))
                  = (sent s ++ [ {| Request_URL := u;
                                    Request_ContentType := "application/json";
                                    Request_Body := json_Marshal rt payload |} ])%list)
  /\ (forall payload reason,
        fst (sendPayload rt payload s) = Panicked reason ->
        snd (sendPayload rt payload s) = s).
Proof.
  split; [intros; apply sendPayload_calledPostAtMostOnce|].
  split; [intros; apply sendPayload_calledPostAtMostOnce|].
  split; [intros; apply sendPayload_calledPostAtMostOnce|].
  split.
  { intros. unfold SendMarkdownMsg.
    destruct (fold_left mention mobiles (content, false)) as [text firstLine].
    apply sendPayload_calledPostAtMostOnce. }
  split.
  { intros. unfold SendActionCardMsg.
    destruct ((0 =? length linkTitles)%nat || (0 =? length linkUrls)%nat);
      [apply calledPostAtMostOnce_refl|].
    destruct (negb (length linkUrls =? length linkTitles)%nat);
      [apply calledPostAtMostOnce_refl|].
    destruct (inject linkTitles linkUrls 0 (length linkTitles) []);
      [apply sendPayload_calledPostAtMostOnce | apply calledPostAtMostOnce_refl]. }
  split; [intros; apply sendPayload_calledPostAtMostOnce|].
  split.
  - intros payload err. rewrite sendPayload_run.
    destruct (requestURL rt (hook s)) as [u|]; [|discriminate].
    intros _. exists u. reflexivity.
  - intros payload reason. rewrite sendPayload_run.
    destruct (requestURL rt (hook s)); [discriminate | reflexivity].
Qed.

(** *** When [sendPayload] panics *)

Lemma requestURL_None (rt : Runtime) (w : WebHook) :
  requestURL rt w = None <->
  (strings.Contains (AccessToken w) (APIURL w) = false \/ Secret w <> "")
  /\ url.Parse (requestBase w) = None.
Proof.
  split.
  - intros Hnone.
    destruct (strings.Contains (AccessToken w) (APIURL w)) eqn:Ho.
    + destruct (String.eqb_spec (Secret w) "") as [Hs | Hs].
      * rewrite (requestURL_plain rt w Ho Hs) in Hnone. discriminate Hnone.
      * split; [right; exact Hs|].
        rewrite (requestURL_addParams rt w (or_intror Hs)), addParamsToURL_Parse in Hnone.
        destruct (url.Parse (requestBase w)); [discriminate Hnone | reflexivity].
    + split; [left; reflexivity|].
      rewrite (requestURL_addParams rt w (or_introl Ho)), addParamsToURL_Parse in Hnone.
      destruct (url.Parse (requestBase w)); [discriminate Hnone | reflexivity].
  - intros [H Hparse].
    rewrite (requestURL_addParams rt w H), addParamsToURL_Parse, Hparse. reflexivity.
Qed.

(** X3. [sendPayload] panics, with a nil pointer dereference in
    [addParamsToURL], exactly when it has a parameter to add (a bare token
    or a secret) and [url.Parse] rejects the URL they are added to; an API
    URL such as [127.0.0.1:8080/robot/send], without a scheme, is one. *)
Theorem sendPayload_panics_iff (rt : Runtime) (payload : PayLoad) (s : State) :
  ((exists reason, fst (sendPayload rt payload s) = Panicked reason) <->
   (strings.Contains (AccessToken (hook s)) (APIURL (hook s)) = false
    \/ Secret (hook s) <> "")
   /\ url.Parse (requestBase (hook s)) = None)
  /\ url.Parse "127.0.0.1:8080/robot/send" = None.
Proof.
  split; [|vm_compute; reflexivity].
  rewrite <- (requestURL_None rt (hook s)), sendPayload_run. split.
  - intros [reason H]. destruct (requestURL rt (hook s)); [discriminate H | reflexivity].
  - intros ->. eexists. reflexivity.
Qed.

(** *** The default endpoint *)

Lemma Encode_singleton (k v : string) : url.Encode {[ k := [v] ]} = queryPair k v.
Proof.
  rewrite Encode_concat. unfold queryPairs, sortedPairs, url.sortedKeys.
  rewrite map_to_list_singleton. cbn [fmap list_fmap fst].
  change (merge_sort String.le [k]) with [k]. cbn [flat_map].
  rewrite lookup_total_singleton_eq. reflexivity.
Qed.

Lemma urlWithQuery_baseAPI (rawQuery : string) :
  urlWithQuery baseAPI_URL rawQuery = baseAPI ++ "?" ++ rawQuery.
Proof.
  unfold urlWithQuery.
  change (url.stringBeforeQuery baseAPI_URL) with baseAPI.
  change (url.stringAfterQuery baseAPI_URL) with "".
  rewrite append_nil_r. reflexivity.
Qed.

Lemma requestURL_default (rt : Runtime) (w : WebHook) :
  APIURL w = baseAPI -> Secret w = "" ->
  strings.Contains (AccessToken w) baseAPI = false ->
  requestURL rt w = Some (defaultEndpoint (AccessToken w)).
Proof.
  intros Hapi Hsecret Ho. rewrite <- Hapi in Ho.
  assert (Hparse : url.Parse (requestBase w) = Some baseAPI_URL).
  { unfold requestBase. rewrite Ho, Hapi. exact Parse_baseAPI. }
  rewrite (requestURL_merged rt w baseAPI_URL (or_introl Ho) Hparse).
  change (url.ParseQuery (url.RawQuery baseAPI_URL)).1 with (∅ : gmap string (list string)).
  rewrite mergeParams_empty. unfold requestParams.
  apply strings_eqb_eq in Hsecret. rewrite Ho, Hsecret.
  rewrite map_fmap_singleton, Encode_singleton, urlWithQuery_baseAPI.
  reflexivity.
Qed.

(** X4. A client made by [NewWebHook] from a token that does not contain
    the default API URL posts to that URL with the one parameter
    [access_token=<token>], the token escaped for a query; no [timestamp]
    or [sign] is added, as no secret is set. *)
Theorem NewWebHook_endpoint
        (rt : Runtime) (payload : PayLoad) (accessToken : string) (log : list Request) :
  strings.Contains accessToken baseAPI = false ->
  postedTo rt payload {| hook := NewWebHook accessToken; sent := log |}
           ("https://oapi.dingtalk.com/robot/send?access_token="
            ++ url.QueryEscape accessToken).
Proof.
  intros Ho. apply postedTo_requestURL.
  apply (requestURL_default rt (NewWebHook accessToken) eq_refl eq_refl Ho).
Qed.

Lemma NewWebHook_endpoint_witness :
  strings.Contains "example-access-token" baseAPI = false
  /\ postedTo (exampleRuntime 0 (PostResponse 200 "ok")) emptyPayLoad
       (fresh (NewWebHook "example-access-token"))
       "https://oapi.dingtalk.com/robot/send?access_token=example-access-token".
Proof.
  assert (Ho : strings.Contains "example-access-token" baseAPI = false)
    by (vm_compute; reflexivity).
  split; [exact Ho|].
  exact (NewWebHook_endpoint (exampleRuntime 0 (PostResponse 200 "ok"))
           emptyPayLoad "example-access-token" [] Ho).
Defined.

(** X5. [resetAPIURL] followed by [sendPayload]: whatever the API URL was
    set to, a client with a bare token and no secret then posts to the
    default endpoint with its token, and its API URL is the default one
    from then on. *)
Theorem resetAPIURL_then_sendPayload (rt : Runtime) (payload : PayLoad) (s : State) :
  Secret (hook s) = "" ->
  strings.Contains (AccessToken (hook s)) baseAPI = false ->
  (_ ← resetAPIURL; sendPayload rt payload) s
  = (Returned (interpret rt (http_Post rt (defaultEndpoint (AccessToken (hook s)))
                               "application/json" (json_Marshal rt payload))),
     {| hook := {| AccessToken := AccessToken (hook s); APIURL := baseAPI;
                   Secret := Secret (hook s) |};
        sent := (sent s ++ [requestOf rt (defaultEndpoint (AccessToken (hook s)))
                                      payload])%list |}).
Proof.
  intros Hsecret Ho. destruct s as [w log]. cbn [hook sent] in *.
  unfold mbind, M_bind, bind, resetAPIURL at 1.
  unfold mbind, M_bind, bind, receiver, assign. cbn [hook sent].
  rewrite sendPayload_run. cbn [hook sent].
  pose proof (requestURL_default rt
                {| AccessToken := AccessToken w; APIURL := baseAPI;
                   Secret := Secret w |} eq_refl Hsecret Ho) as Hurl.
  cbn [AccessToken] in Hurl.
  change "https://oapi.dingtalk.com/robot/send" with baseAPI.
  rewrite Hurl. reflexivity.
Qed.

Lemma resetAPIURL_then_sendPayload_witness :
  strings.Contains "example-access-token" baseAPI = false
  /\ sent (snd ((_ ← resetAPIURL;
                 sendPayload (exampleRuntime 0 (PostResponse 200 "ok")) emptyPayLoad)
                  (fresh {| AccessToken := "example-access-token";
                            APIURL := "http://ip.cip.cc/"; Secret := "" |})))
     = [ {| Request_URL :=
              "https://oapi.dingtalk.com/robot/send?access_token=example-access-token";
            Request_ContentType := "application/json";
            Request_Body := "" |} ].
Proof.
  assert (Ho : strings.Contains "example-access-token" baseAPI = false)
    by (vm_compute; reflexivity).
  split; [exact Ho|].
  rewrite (resetAPIURL_then_sendPayload (exampleRuntime 0 (PostResponse 200 "ok"))
             emptyPayLoad
             (fresh {| AccessToken := "example-access-token";
                       APIURL := "http://ip.cip.cc/"; Secret := "" |})
             eq_refl Ho).
  reflexivity.
Defined.

(** *** The override is decided by a substring *)

(** X6. The access token is taken for the full endpoint whenever the API
    URL occurs anywhere in it, not only at its start: with no secret the
    POST then goes to the token as it is.  With an empty API URL this holds
    of every token. *)
Theorem override_by_substring
        (rt : Runtime) (payload : PayLoad) (before apiURL after : string)
        (log : list Request) :
  postedTo rt payload
           {| hook := {| AccessToken := before ++ apiURL ++ after;
                         APIURL := apiURL; Secret := "" |};
              sent := log |}
           (before ++ apiURL ++ after)
  /\ postedTo rt payload
       {| hook := {| AccessToken := after; APIURL := ""; Secret := "" |};
          sent := log |}
       after.
Proof.
  split; apply postedTo_requestURL, requestURL_plain; cbn [AccessToken APIURL Secret];
    try reflexivity.
  - apply Contains_middle.
  - apply (Contains_middle "" "" after).
Qed.


(** *** The order of the map iteration *)

Lemma fold_Set_lookup (order : list (string * string)) :
  NoDup order.*1 ->
  forall (q : gmap string (list string)) (k : string),
    fold_left (fun q kv => url.Set_ q (fst kv) (snd kv)) order q !! k
    = match (list_to_map order : gmap string string) !! k with
      | Some v => Some [v]
      | None => q !! k
      end.
Proof.
  induction order as [|[k0 v0] order IH]; intros Hnodup q k.
  - cbn [fold_left list_to_map foldr]. rewrite lookup_empty. reflexivity.
  - cbn [fmap list_fmap fst] in Hnodup. apply NoDup_cons in Hnodup as [Hk0 Hnodup].
    cbn [fold_left fst snd]. rewrite (IH Hnodup), list_to_map_cons. unfold url.Set_.
    destruct (decide (k = k0)) as [-> | Hk].
    + rewrite (not_elem_of_list_to_map_1 _ _ Hk0), !lookup_insert_eq. reflexivity.
    + rewrite !lookup_insert_ne by congruence. reflexivity.
Qed.

(** X7. The URL [addParamsToURL] builds does not depend on the order in
    which the loop over [params] meets the keys: the keys of a map are
    distinct, so each [q.Set] writes a key of its own. *)
Theorem addParamsToURL_any_order
        (params : gmap string string) (order : list (string * string))
        (originURL : string) :
  order ≡ₚ map_to_list params ->
  addParamsToURL_ranging order originURL = addParamsToURL params originURL.
Proof.
  intros Hperm. unfold addParamsToURL_ranging. rewrite addParamsToURL_Parse.
  destruct (url.Parse originURL) as [u|]; [|reflexivity].
  cbn [fmap option_fmap option_map].
  destruct (url.ParseQuery (url.RawQuery u)) as [q err]. cbn [fst].
  assert (Hq : fold_left (fun q kv => url.Set_ q (fst kv) (snd kv)) order q
               = mergeParams params q).
  { apply map_eq. intros k.
    assert (Hnodup : NoDup order.*1).
    { rewrite Hperm. apply NoDup_fst_map_to_list. }
    rewrite (fold_Set_lookup order Hnodup), lookup_mergeParams.
    rewrite (list_to_map_proper _ _ Hnodup Hperm), list_to_map_to_list.
    reflexivity. }
  rewrite Hq. reflexivity.
Qed.

Lemma addParamsToURL_any_order_witness :
  [("timestamp", "1"); ("access_token", "tok"); ("sign", "s")]
    ≡ₚ map_to_list ({[ "access_token" := "tok"; "sign" := "s"; "timestamp" := "1" ]}
                      : gmap string string)
  /\ addParamsToURL_ranging
       [("timestamp", "1"); ("access_token", "tok"); ("sign", "s")] baseAPI
     = Some "https://oapi.dingtalk.com/robot/send?access_token=tok&sign=s&timestamp=1".
Proof.
  assert (Hperm : [("timestamp", "1"); ("access_token", "tok"); ("sign", "s")]
                    ≡ₚ map_to_list ({[ "access_token" := "tok"; "sign" := "s";
                                       "timestamp" := "1" ]} : gmap string string)).
  { rewrite map_to_list_insert
      by (rewrite lookup_insert_ne by discriminate; apply lookup_singleton_ne; discriminate).
    rewrite map_to_list_insert by (apply lookup_singleton_ne; discriminate).
    rewrite map_to_list_singleton.
    apply (Permutation_app_comm [("timestamp", "1")]
                                [("access_token", "tok"); ("sign", "s")]). }
  split; [exact Hperm|].
  rewrite (addParamsToURL_any_order _ _ baseAPI Hperm). vm_compute. reflexivity.
Defined.

(** *** The shape of the signature *)

Lemma HMAC_SHA256_length (key text : bytes) :
  length (HMAC_SHA256 key text) = 32%nat.
Proof. unfold HMAC_SHA256. apply Sum256_length. Qed.

Lemma escape_app (a b : string) (mode : url.encoding) :
  url.escape (a ++ b) mode = url.escape a mode ++ url.escape b mode.
Proof.
  induction a as [|c a IH]; [reflexivity|].
  rewrite append_cons. cbn [url.escape]. rewrite IH.
  destruct (url.shouldEscape c mode); [|reflexivity].
  destruct (Ascii.eqb c " " && url.encoding_eqb mode url.encodeQueryComponent);
    reflexivity.
Qed.

Lemma base64_of_32_bytes (digest : bytes) :
  length digest = 32%nat ->
  exists body, base64.EncodeToString digest = body ++ "="
               /\ String.length body = 43%nat.
Proof.
  intros Hlen.
  do 32 (destruct digest as [|? digest]; [discriminate Hlen|]).
  destruct digest; [|discriminate Hlen].
  cbn [base64.EncodeToString].
  eexists (String _ (String _ (String _ (String _ (String _ (String _ (String _
          (String _ (String _ (String _ (String _ (String _ (String _ (String _
          (String _ (String _ (String _ (String _ (String _ (String _ (String _
          (String _ (String _ (String _ (String _ (String _ (String _ (String _
          (String _ (String _ (String _ (String _ (String _ (String _ (String _
          (String _ (String _ (String _ (String _ (String _ (String _ (String _
          (String _ ""))))))))))))))))))))))))))))))))))))))))))).
  split; reflexivity.
Qed.

(** X8. Whatever the secret and the clock, the signature [getSign] returns
    is 44 characters of base64 that end with the padding character [=]; in
    a query it is therefore never written as it is, but ends with [%3D]. *)
Theorem getSign_signature_shape (rt : Runtime) (s : State) :
  exists timestamp body : string,
    getSign rt s = (Returned (timestamp, body ++ "="), s)
    /\ String.length body = 43%nat
    /\ url.QueryEscape (body ++ "=") = url.QueryEscape body ++ "%3D".
Proof.
  rewrite getSign_run. unfold signNow. rewrite hmac_Sum_Write_New.
  destruct (base64_of_32_bytes _ (HMAC_SHA256_length
              (bytes_of_string (Secret (hook s)))
              (bytes_of_string (timestampNow rt ++ String "010" ""
                                ++ Secret (hook s)))))
    as (body & Hbody & Hlen).
  exists (timestampNow rt), body. rewrite Hbody. split; [reflexivity|].
  split; [exact Hlen|]. unfold url.QueryEscape. apply escape_app.
Qed.

(** *** Markdown without a mention *)

(** X9. When none of the mobile numbers matches the pattern (or none is
    given), [SendMarkdownMsg] sends the content as it is, without the
    [#####] marker, and still lists every number given in the at-block. *)
Theorem SendMarkdownMsg_without_match
        (rt : Runtime) (title content : string) (isAtAll : bool)
        (mobiles : list string) :
  Forall (fun mobile => matchesMobile mobile = false) mobiles ->
  SendMarkdownMsg rt title content isAtAll mobiles
  = sendPayload rt (markdownPayload title content isAtAll mobiles).
Proof.
  intros Hnone. unfold SendMarkdownMsg. rewrite fold_mention.
  assert (Hfilter : List.filter matchesMobile mobiles = []).
  { induction Hnone as [|mobile mobiles Hm _ IH]; [reflexivity|].
    cbn [List.filter]. rewrite Hm. exact IH. }
  unfold mentions. rewrite Hfilter, append_nil_r. reflexivity.
Qed.

Lemma SendMarkdownMsg_without_match_witness :
  Forall (fun mobile => matchesMobile mobile = false) ["+8613800138000"; ""]
  /\ SendMarkdownMsg (exampleRuntime 0 (PostResponse 200 "ok"))
       "T" "body" false ["+8613800138000"; ""]
     = sendPayload (exampleRuntime 0 (PostResponse 200 "ok"))
         (markdownPayload "T" "body" false ["+8613800138000"; ""]).
Proof.
  assert (H : Forall (fun mobile => matchesMobile mobile = false)
                     ["+8613800138000"; ""])
    by (repeat constructor; vm_compute; reflexivity).
  split; [exact H|].
  exact (SendMarkdownMsg_without_match _ "T" "body" false _ H).
Defined.

(** *** From the error back to the failure *)

(** [strconv.FormatInt] writes an integer that reads back from it. *)
Lemma FormatInt_reads_back (i : Z) :
  Z.of_int <$> NilZero.int_of_string (strconv.FormatInt i) = Some i.
Proof.
  unfold strconv.FormatInt.
  rewrite <- (DecimalZ.of_to i) at 2.
  destruct (Z.to_int i) as [d|d]; destruct d;
    first [ reflexivity
          | rewrite NilZero.isi by discriminate; reflexivity ].
Qed.

Lemma FormatInt_inj (i j : Z) :
  strconv.FormatInt i = strconv.FormatInt j -> i = j.
Proof.
  intros H.
  apply (f_equal (fun s => Z.of_int <$> NilZero.int_of_string s)) in H.
  rewrite !FormatInt_reads_back in H. congruence.
Qed.

(** X10. The error [sendPayload] returns tells the failure: a transport
    error carries the cause of a POST that failed, an HTTP status error the
    status of the response, which is not 200, a malformed response error
    comes with status 200 and a body that did not decode, and a remote API
    error with status 200, a body that decoded and a non-zero [errcode]. *)
Theorem sendPayload_error_tells_failure
        (rt : Runtime) (payload : PayLoad) (s : State) (u : string) :
  requestURL rt (hook s) = Some u ->
  let resp := http_Post rt u "application/json" (json_Marshal rt payload) in
  let result := fst (sendPayload rt payload s) in
  (forall cause, result = Returned (TransportError cause) -> resp = PostError cause)
  /\ (forall code, result = Returned (HTTPStatusError code) ->
        code <> 200%Z /\ exists body, resp = PostResponse code body)
  /\ (forall cause, result = Returned (MalformedResponseError cause) ->
        exists body r, resp = PostResponse 200 body
                       /\ json_Unmarshal rt body zeroResponse = (r, Some cause))
  /\ (forall code msg, result = Returned (RemoteAPIError code msg) ->
        exists body r, resp = PostResponse 200 body
                       /\ json_Unmarshal rt body zeroResponse = (r, None)
                       /\ ErrorCode r <> 0%Z).
Proof.
  intros Hurl resp result.
  assert (Hres : result = Returned (interpret rt resp)).
  { subst result resp. rewrite sendPayload_run, Hurl. reflexivity. }
  assert (Hcases :
    (exists cause, resp = PostError cause
                   /\ interpret rt resp = TransportError cause)
    \/ (exists code body, resp = PostResponse code body /\ code <> 200%Z
                          /\ interpret rt resp = HTTPStatusError code)
    \/ (exists body r cause, resp = PostResponse 200 body
          /\ json_Unmarshal rt body zeroResponse = (r, Some cause)
          /\ interpret rt resp = MalformedResponseError cause)
    \/ (exists body r, resp = PostResponse 200 body
          /\ json_Unmarshal rt body zeroResponse = (r, None)
          /\ ErrorCode r <> 0%Z
          /\ interpret rt resp = RemoteAPIError (ErrorCode r) (ErrorMessage r))
    \/ interpret rt resp = None).
  { destruct resp as [cause|code body].
    { left. exists cause. split; reflexivity. }
    right. cbn [interpret].
    destruct (Z.eqb_spec code 200) as [-> | Hcode].
    2: { left. exists code, body. split; [reflexivity|]. split; [exact Hcode|]. reflexivity. }
    right.
    destruct (json_Unmarshal rt body zeroResponse) as [r [cause|]] eqn:Hdec.
    { left. exists body, r, cause. split; [reflexivity|]. split; [exact Hdec|]. reflexivity. }
    right. destruct (Z.eqb_spec (ErrorCode r) 0) as [Hzero | Hzero].
    { right. reflexivity. }
    left. exists body, r. split; [reflexivity|]. split; [exact Hdec|].
    split; [exact Hzero|]. reflexivity. }
  rewrite Hres. clear Hres result.
  repeat split; intros;
    match goal with H : Returned _ = Returned _ |- _ => injection H as H end;
    destruct Hcases as [(c1 & Hr & Hi) | [(c2 & b2 & Hr & Hne & Hi)
      | [(b3 & r3 & c3 & Hr & Hdec & Hi) | [(b4 & r4 & Hr & Hdec & Hne & Hi) | Hi]]]];
    rewrite Hi in H;
    try (exfalso;
         first [ discriminate H
               | revert H; apply error_kinds_distinct
               | symmetry in H; revert H; apply error_kinds_distinct ]).
  - rewrite Hr. f_equal. unfold TransportError in H. injection H as H.
    rewrite !append_nil_l in H. congruence.
  - unfold HTTPStatusError in H. injection H as H.
    rewrite !append_nil_l in H. apply FormatInt_inj in H.
    subst. exact Hne.
  - unfold HTTPStatusError in H. injection H as H.
    rewrite !append_nil_l in H. apply FormatInt_inj in H.
    subst. eauto.
  - unfold MalformedResponseError in H. injection H as H.
    rewrite !append_nil_l in H. subst. eauto.
  - eauto.
Qed.

Lemma sendPayload_error_tells_failure_witness :
  requestURL (exampleRuntime 0 (PostResponse 404 "")) (NewWebHook "tok")
  = Some "https://oapi.dingtalk.com/robot/send?access_token=tok"
  /\ exists body,
       http_Post (exampleRuntime 0 (PostResponse 404 ""))
                 "https://oapi.dingtalk.com/robot/send?access_token=tok"
                 "application/json" "" = PostResponse 404 body.
Proof.
  assert (H : requestURL (exampleRuntime 0 (PostResponse 404 ""))
                (hook (fresh (NewWebHook "tok")))
              = Some "https://oapi.dingtalk.com/robot/send?access_token=tok")
    by (vm_compute; reflexivity).
  split; [exact H|].
  apply (sendPayload_error_tells_failure _ emptyPayLoad _ _ H).
  vm_compute. reflexivity.
Defined.

(** *** The pattern beyond eleven decimal digits *)

Lemma runes_cons_ascii (c : ascii) (s : string) :
  (N_of_ascii c < 128)%N ->
  utf8.runes (String c s) = byte_of_ascii c :: utf8.runes s.
Proof.
  intros Hc. unfold utf8.runes. cbn [utf8.runes_from].
  rewrite (DecodeRune_ascii c s Hc). reflexivity.
Qed.

Lemma mobileLanguage_length (rs : list Z) :
  mobileLanguage rs -> length rs = 11%nat \/ length rs = 12%nat.
Proof.
  intros (head & digits & -> & Hlen & _ & Hhead).
  cbn [length]. rewrite length_app, Hlen.
  destruct Hhead as [(a & b & -> & _) | [(c & -> & _) | (c & -> & _)]];
    cbn [length]; lia.
Qed.

Lemma mobileLanguage_first (rs : list Z) :
  mobileLanguage rs -> exists rest, rs = 49%Z :: rest.
Proof. intros (head & digits & -> & _). eauto. Qed.

Lemma mobileLanguage_four (r1 r2 r3 r4 : Z) (digits : list Z) :
  length digits = 8%nat ->
  mobileLanguage (r1 :: r2 :: r3 :: r4 :: digits) ->
  r1 = 49%Z /\ r2 = 49%Z /\ r3 = 52%Z /\ (r4 = 53 \/ r4 = 55)%Z.
Proof.
  intros Hlen (head & ds & E & Hds & _ & Hhead).
  destruct Hhead as [(a & b & -> & _) | [(c & -> & Hc) | (c & -> & _)]];
    cbn [app] in E; injection E as E1 E2 E3 E4.
  - exfalso. apply (f_equal (@length Z)) in E4. cbn [length] in E4. lia.
  - subst. auto.
  - exfalso. apply (f_equal (@length Z)) in E4. cbn [length] in E4. lia.
Qed.

Lemma mobileLanguage_three (r1 r2 r3 : Z) (digits : list Z) :
  length digits = 8%nat ->
  mobileLanguage (r1 :: r2 :: r3 :: digits) ->
  r1 = 49%Z /\ (r2 = 51 \/ r2 = 56 \/ (r2 = 53 /\ r3 <> 52))%Z.
Proof.
  intros Hlen (head & ds & E & Hds & _ & Hhead).
  destruct Hhead as [(a & b & -> & Ha & _) | [(c & -> & Hc) | (c & -> & Hc)]];
    cbn [app] in E; injection E as E1 E2 E3 E4.
  - subst. split; [reflexivity|]. destruct Ha; auto.
  - exfalso. apply (f_equal (@length Z)) in E4. cbn [length] in E4. lia.
  - subst. auto.
Qed.

(** X11. For every string, of digits or not, [regPattern] matches exactly
    when the runes of the string are a [1], one of the three heads and
    eight decimal digits, with nothing before or after: a string that
    matches has eleven or twelve runes and starts with [1]. *)
Theorem regPattern_matches_whole_string (s : string) :
  (matchesMobile s = true <-> mobileLanguage (utf8.runes s))
  /\ (matchesMobile s = true ->
      (length (utf8.runes s) = 11%nat \/ length (utf8.runes s) = 12%nat)
      /\ exists rest, utf8.runes s = 49%Z :: rest).
Proof.
  unfold matchesMobile. split; [apply MatchString_regPattern|].
  intros H%MatchString_regPattern.
  split; [apply mobileLanguage_length | apply mobileLanguage_first]; exact H.
Qed.

(** X12. After [114] the pattern takes a [5] or a [7] and eight digits, so
    twelve-digit strings match; after [14] alone it takes nothing; and
    after [15] it takes any character but [4], a letter or a space
    included. *)
Theorem regPattern_heads (c : ascii) (digits : string) :
  String.length digits = 8%nat ->
  decimal digits = true ->
  (N_of_ascii c < 128)%N ->
  (matchesMobile ("114" ++ String c digits) = true <-> c = "5"%char \/ c = "7"%char)
  /\ matchesMobile ("14" ++ String c digits) = false
  /\ (matchesMobile ("15" ++ String c digits) = true <-> c <> "4"%char).
Proof.
  intros Hlen Hdec Hc.
  pose proof (bytes_of_string_length digits) as Hblen. rewrite Hlen in Hblen.
  pose proof (decimal_digits _ Hdec) as Hall.
  assert (Hrunes : forall d : ascii, (N_of_ascii d < 128)%N -> forall t,
             utf8.runes (String d t) = byte_of_ascii d :: utf8.runes t)
    by (intros; apply runes_cons_ascii; assumption).
  unfold matchesMobile. repeat split.
  - rewrite MatchString_regPattern.
    change ("114" ++ String c digits)
      with (String "1" (String "1" (String "4" (String c digits)))).
    rewrite !Hrunes, (runes_decimal _ Hdec) by (first [exact Hc | vm_compute; reflexivity]).
    intros (_ & _ & _ & H)%mobileLanguage_four; [|exact Hblen].
    destruct H as [H | H]; [left | right]; apply byte_of_ascii_inj; exact H.
  - rewrite MatchString_regPattern.
    change ("114" ++ String c digits)
      with (String "1" (String "1" (String "4" (String c digits)))).
    rewrite !Hrunes, (runes_decimal _ Hdec) by (first [exact Hc | vm_compute; reflexivity]).
    intros H. exists [49; 52; byte_of_ascii c]%Z, (bytes_of_string digits).
    split; [reflexivity|]. split; [exact Hblen|]. split; [exact Hall|].
    right. left. exists (byte_of_ascii c). split; [reflexivity|].
    destruct H as [-> | ->]; [left | right]; reflexivity.
  - apply not_true_is_false. rewrite MatchString_regPattern.
    change ("14" ++ String c digits) with (String "1" (String "4" (String c digits))).
    rewrite !Hrunes, (runes_decimal _ Hdec) by (first [exact Hc | vm_compute; reflexivity]).
    intros (_ & H)%mobileLanguage_three; [|exact Hblen].
    destruct H as [H | [H | [H _]]]; discriminate H.
  - rewrite MatchString_regPattern.
    change ("15" ++ String c digits) with (String "1" (String "5" (String c digits))).
    rewrite !Hrunes, (runes_decimal _ Hdec) by (first [exact Hc | vm_compute; reflexivity]).
    intros (_ & H)%mobileLanguage_three; [|exact Hblen].
    destruct H as [H | [H | [_ H]]]; try discriminate H.
    intros ->. apply H. reflexivity.
  - rewrite MatchString_regPattern.
    change ("15" ++ String c digits) with (String "1" (String "5" (String c digits))).
    rewrite !Hrunes, (runes_decimal _ Hdec) by (first [exact Hc | vm_compute; reflexivity]).
    intros H. exists [53; byte_of_ascii c]%Z, (bytes_of_string digits).
    split; [reflexivity|]. split; [exact Hblen|]. split; [exact Hall|].
    right. right. exists (byte_of_ascii c). split; [reflexivity|].
    intros E. apply H. apply byte_of_ascii_inj. exact E.
Qed.

Lemma regPattern_heads_witness :
  String.length "12345678" = 8%nat
  /\ matchesMobile "15 12345678" = true
  /\ matchesMobile "114712345678" = true.
Proof.
  split; [reflexivity|].
  assert (Hspace : (N_of_ascii " " < 128)%N) by (vm_compute; reflexivity).
  assert (Hseven : (N_of_ascii "7" < 128)%N) by (vm_compute; reflexivity).
  split.
  - apply (proj2 (proj2 (regPattern_heads " " "12345678" eq_refl eq_refl Hspace))).
    discriminate.
  - apply (proj1 (regPattern_heads "7" "12345678" eq_refl eq_refl Hseven)).
    right. reflexivity.
Defined.
